(** * Immutable join and sub-query builders of kysely

    A shallow embedding of [src/query-builder/join-builder.ts] and
    [src/query-builder/sub-query-builder.ts].

    Builders are JavaScript objects: they have an identity and live in a
    store.  The embedding keeps an explicit store ([State]) in which every
    [new] and every frozen node allocates a fresh location, and threads it
    through the builder methods with a small state-and-exception monad, so
    that "returns a new instance" and "leaves the receiver unchanged" are
    statements about locations and store contents. *)

From Stdlib Require Import String List Arith Lia.
From stdpp Require Import base option list.
Import ListNotations.
Open Scope string_scope.
Open Scope list_scope.

(** ** Operation nodes *)

(** Literal JavaScript values that reach the parsers. *)
Inductive Literal : Type :=
| LString (s : string)
| LNumber (n : nat)
| LBoolean (b : bool)
| LNull.

(** Modelled from the spec: the operation node tree (section 2, "immutable,
    acyclic, serializable tree of typed nodes").  The node declarations live
    in [src/operation-node/], which is not part of the two files embedded
    here; only the node kinds the builders and their parsers produce are
    listed. *)
Inductive OperationNode : Type :=
| AndNode (left right : OperationNode)
| OrNode (left right : OperationNode)
| BinaryOperationNode (leftOperand : OperationNode) (operator : string)
                      (rightOperand : OperationNode)
| UnaryOperationNode (operator : string) (operand : OperationNode)
| ReferenceNode (column : string)
| ValueNode (value : Literal)
| ValueListNode (values : list Literal)
| RawNode (sql : string).

(** Modelled from the spec: what [parseTableExpressionOrList] returns for one
    table expression (section 4.2: "a named table, an aliased table, or a
    raw fragment"), and the select-query node built from the parsed list. *)
Inductive TableExpressionNode : Type :=
| TableNode (table : string)
| AliasNode (table alias : string)
| RawTableNode (sql : string).

Record SelectQueryNode : Type := mkSelectQueryNode {
  from : list TableExpressionNode
}.

(** What a caller can pass where the TypeScript signature says [any]:
    a literal, an array of literals, or an [Expression] object, which hands
    out its operation node.  A factory callback is represented by the
    expression it returns. *)
Inductive JsValue : Type :=
| JsLit (l : Literal)
| JsArray (items : list Literal)
| JsExpression (node : OperationNode)
| JsFactory (returns : OperationNode).

Inductive JoinType : Type :=
| InnerJoin | LeftJoin | RightJoin | FullJoin | CrossJoin.

(** Modelled from the spec: the join node (section 3): a join kind, a table
    reference and an optional [on] predicate clause. *)
Record JoinNode : Type := mkJoinNode {
  joinType : JoinType;
  table : OperationNode;
  on_clause : option OperationNode
}.

(** ** The store *)

(** A location is an index into the store. *)
Abbreviation loc := nat.

(** Modelled from the spec: the transformations of an executor's chain
    (section 6); [WithSchemaPlugin] is the schema qualification that
    [withSchema] installs. *)
Inductive Plugin : Type :=
| WithSchemaPlugin (schema : string)
| OtherPlugin (name : string).

(** [JoinBuilderProps], [SubQueryBuilderProps] as declared in the source;
    object-valued fields are references. *)
Record JoinBuilderProps : Type := mkJoinBuilderProps {
  joinNode : loc
}.

Record SubQueryBuilderProps : Type := mkSubQueryBuilderProps {
  executor : loc;
  adapter : loc
}.

(** The record [SubQueryBuilder.subQuery] passes to [new QueryBuilder]. *)
Record QueryBuilderProps : Type := mkQueryBuilderProps {
  queryId : nat;
  qb_executor : loc;
  qb_adapter : loc;
  queryNode : SelectQueryNode
}.

(** Objects of the store.  A builder holds its frozen props record; the
    record is private ([#props]) and frozen by the constructor, so it is
    kept inline in the builder object. *)
Inductive Obj : Type :=
| OJoinNode (n : JoinNode)
| OJoinBuilder (props : JoinBuilderProps)
| OSubQueryBuilder (props : SubQueryBuilderProps)
| OQueryBuilder (props : QueryBuilderProps)
| OExecutor (plugins : list Plugin)
| OAdapter (dialect : string).

(** The store: an append-only list of objects, a location being an index,
    and the counter behind [createQueryId]. *)
Record State : Type := mkState {
  heap : list Obj;
  nextQueryId : nat
}.

(** ** Errors and the monad *)

(** The failure kinds of section 7, and the [TypeError] JavaScript raises
    when a private field is read on an object of another class. *)
Inductive Error : Type :=
| InvalidArgument
| InvalidOperator (operator : string)
| InvalidOperand
| InvalidTableExpression
| MisuseError (message : string)
| TypeError.

Inductive Result (A : Type) : Type :=
| Ok (a : A)
| Throw (e : Error).
Arguments Ok {A} a.
Arguments Throw {A} e.

(** A computation reads and extends the store and either returns or throws;
    as in JavaScript, the store survives a throw. *)
Definition M (A : Type) : Type := State -> Result A * State.

Definition ret {A} (a : A) : M A := fun s => (Ok a, s).

Definition throw {A} (e : Error) : M A := fun s => (Throw e, s).

Definition bind {A B} (m : M A) (k : A -> M B) : M B :=
  fun s =>
    match m s with
    | (Ok a, s') => k a s'
    | (Throw e, s') => (Throw e, s')
    end.

Notation "'let!' x ':=' m 'in' k" := (bind m (fun x => k))
  (at level 10, x name, m at level 100, k at level 200).

(** A parser result enters the monad: a failure is thrown at that point. *)
Definition lift {A} (r : Result A) : M A :=
  match r with
  | Ok a => ret a
  | Throw e => throw e
  end.

Definition alloc (o : Obj) : M loc :=
  fun s => (Ok (length (heap s)),
            {| heap := heap s ++ [o]; nextQueryId := nextQueryId s |}).

Definition readJoinNode (l : loc) : M JoinNode :=
  fun s => match heap s !! l with
           | Some (OJoinNode n) => (Ok n, s)
           | _ => (Throw TypeError, s)
           end.

Definition readExecutor (l : loc) : M (list Plugin) :=
  fun s => match heap s !! l with
           | Some (OExecutor ps) => (Ok ps, s)
           | _ => (Throw TypeError, s)
           end.

(** ** External collaborators

    The parsers, the node constructors and the parse-context factory are
    imported from modules outside the two embedded files.  They are taken
    as parameters; the builder methods below are written against this
    interface, and the theorems hold for every implementation of it. *)
Class Collaborators : Type := {
  (** [parseOn(args)] of [parser/binary-operation-parser]. *)
  parseOn : list JsValue -> Result OperationNode;
  (** [parseReferentialComparison(lhs, op, rhs)]. *)
  parseReferentialComparison :
    JsValue -> JsValue -> JsValue -> Result OperationNode;
  (** [parseExists(arg)], [parseNotExists(arg)] of
      [parser/unary-operation-parser]. *)
  parseExists : JsValue -> Result OperationNode;
  parseNotExists : JsValue -> Result OperationNode;
  (** The contents of the node [JoinNode.cloneWithOn(node, fragment)] and
      [JoinNode.cloneWithOrOn(node, fragment)] return. *)
  cloneWithOn : JoinNode -> OperationNode -> JoinNode;
  cloneWithOrOn : JoinNode -> OperationNode -> JoinNode;
  (** [createParseContext(adapter)] of [parser/parse-context]. *)
  ParseContext : Type;
  createParseContext : loc -> ParseContext;
  (** [parseTableExpressionOrList(ctx, table)] of [parser/table-parser]. *)
  parseTableExpressionOrList :
    ParseContext -> JsValue -> Result (list TableExpressionNode)
}.

(** Modelled from the spec: the contract of the node constructors of
    [operation-node/join-node] (sections 3 and 6: "clone with on" conjuncts
    the fragment with any existing clause, "clone with or-on" disjuncts it;
    the rest of the node is kept). *)
Class NodeContract (C : Collaborators) : Prop := {
  cloneWithOn_contract : forall n f,
    cloneWithOn n f =
    {| joinType := joinType n; table := table n;
       on_clause := Some match on_clause n with
                         | Some c => AndNode c f
                         | None => f
                         end |};
  cloneWithOrOn_contract : forall n f,
    cloneWithOrOn n f =
    {| joinType := joinType n; table := table n;
       on_clause := Some match on_clause n with
                         | Some c => OrNode c f
                         | None => f
                         end |}
}.

(** Modelled from the spec: [RawNode.createWithSql(sql)] of
    [operation-node/raw-node], a raw fragment with the given SQL text. *)
Definition RawNode_createWithSql (sql : string) : OperationNode := RawNode sql.

(** Modelled from the spec: [SelectQueryNode.create(fromItems)] of
    [operation-node/select-query-node] (section 4.2: a select-query node
    whose [from] clause is the parsed table expressions). *)
Definition SelectQueryNode_create (items : list TableExpressionNode)
  : SelectQueryNode := {| from := items |}.

(** Modelled from the spec: [createQueryId()] of [util/query-id] (section 6:
    "globally unique per call, no reuse").  Identifiers are drawn from a
    process-wide counter. *)
Definition createQueryId : M nat :=
  fun s => (Ok (nextQueryId s),
            {| heap := heap s; nextQueryId := S (nextQueryId s) |}).

(** Modelled from the spec: [executor.withPluginAtFront(plugin)] of
    [query-executor/] (section 6: returns a new executor with the
    transformation installed at the front of the chain; the receiver is
    immutable). *)
Definition withPluginAtFront (this : loc) (plugin : Plugin) : M loc :=
  let! plugins := readExecutor this in
  alloc (OExecutor (plugin :: plugins)).

(** Modelled from the spec: [JoinNode.cloneWithOn] and
    [JoinNode.cloneWithOrOn] as operations on node objects (section 6:
    "pure, non-mutating, return a structurally new node"): the argument node
    is read and the clone is a new object. *)
Definition JoinNode_cloneWithOn `{Collaborators}
    (node : loc) (fragment : OperationNode) : M loc :=
  let! n := readJoinNode node in
  alloc (OJoinNode (cloneWithOn n fragment)).

Definition JoinNode_cloneWithOrOn `{Collaborators}
    (node : loc) (fragment : OperationNode) : M loc :=
  let! n := readJoinNode node in
  alloc (OJoinNode (cloneWithOrOn n fragment)).

(** ** [class JoinBuilder] *)

Module JoinBuilder.
Section Methods.
Context `{Collaborators}.

(** [constructor(props) { this.#props = freeze(props) }].  The methods pass
    a fresh object literal, which the constructor freezes; literal, freeze
    and instance are one allocation, made once the fields are evaluated. *)
Definition new (props : JoinBuilderProps) : M loc :=
  alloc (OJoinBuilder props).

(** [this.#props]; a receiver of another class has no such field. *)
Definition props (this : loc) : M JoinBuilderProps :=
  fun s => match heap s !! this with
           | Some (OJoinBuilder p) => (Ok p, s)
           | _ => (Throw TypeError, s)
           end.

(** The object literal [{ ...props, joinNode: node }]. *)
Definition withJoinNode (p : JoinBuilderProps) (node : loc)
  : JoinBuilderProps := {| joinNode := node |}.

Definition on (this : loc) (args : list JsValue) : M loc :=
  let! p := props this in
  let! fragment := lift (parseOn args) in
  let! node := JoinNode_cloneWithOn (joinNode p) fragment in
  new (withJoinNode p node).

Definition orOn (this : loc) (args : list JsValue) : M loc :=
  let! p := props this in
  let! fragment := lift (parseOn args) in
  let! node := JoinNode_cloneWithOrOn (joinNode p) fragment in
  new (withJoinNode p node).

Definition onRef (this : loc) (lhs op rhs : JsValue) : M loc :=
  let! p := props this in
  let! fragment := lift (parseReferentialComparison lhs op rhs) in
  let! node := JoinNode_cloneWithOn (joinNode p) fragment in
  new (withJoinNode p node).

Definition orOnRef (this : loc) (lhs op rhs : JsValue) : M loc :=
  let! p := props this in
  let! fragment := lift (parseReferentialComparison lhs op rhs) in
  let! node := JoinNode_cloneWithOrOn (joinNode p) fragment in
  new (withJoinNode p node).

Definition onExists (this : loc) (arg : JsValue) : M loc :=
  let! p := props this in
  let! fragment := lift (parseExists arg) in
  let! node := JoinNode_cloneWithOn (joinNode p) fragment in
  new (withJoinNode p node).

Definition onNotExists (this : loc) (arg : JsValue) : M loc :=
  let! p := props this in
  let! fragment := lift (parseNotExists arg) in
  let! node := JoinNode_cloneWithOn (joinNode p) fragment in
  new (withJoinNode p node).

Definition orOnExists (this : loc) (arg : JsValue) : M loc :=
  let! p := props this in
  let! fragment := lift (parseExists arg) in
  let! node := JoinNode_cloneWithOrOn (joinNode p) fragment in
  new (withJoinNode p node).

Definition orOnNotExists (this : loc) (arg : JsValue) : M loc :=
  let! p := props this in
  let! fragment := lift (parseNotExists arg) in
  let! node := JoinNode_cloneWithOrOn (joinNode p) fragment in
  new (withJoinNode p node).

Definition onTrue (this : loc) : M loc :=
  let! p := props this in
  let! node :=
    JoinNode_cloneWithOn (joinNode p) (RawNode_createWithSql "true") in
  new (withJoinNode p node).


Definition toOperationNode (this : loc) : M loc :=
  let! p := props this in
  ret (joinNode p).
End Methods.
End JoinBuilder.

(** ** [class SubQueryBuilder] *)

Module QueryBuilder.
(** Modelled from the spec: [new QueryBuilder(props)] of
    [query-builder/query-builder] (section 4.2: "constructs a new
    query-builder instance"); only the construction is used. *)
Definition new (props : QueryBuilderProps) : M loc :=
  alloc (OQueryBuilder props).
End QueryBuilder.

Module SubQueryBuilder.
Section Methods.
Context `{Collaborators}.

Definition new (props : SubQueryBuilderProps) : M loc :=
  alloc (OSubQueryBuilder props).

Definition props (this : loc) : M SubQueryBuilderProps :=
  fun s => match heap s !! this with
           | Some (OSubQueryBuilder p) => (Ok p, s)
           | _ => (Throw TypeError, s)
           end.

(** [get #parseContext() { return createParseContext(this.#props.adapter) }] *)
Definition parseContext (this : loc) : M ParseContext :=
  let! p := props this in
  ret (createParseContext (adapter p)).

(** The fields of the literal are evaluated in source order: the query
    identifier is drawn first, the table expression is parsed last. *)
Definition subQuery (this : loc) (table : JsValue) : M loc :=
  let! qid := createQueryId in
  let! p := props this in
  let! ctx := parseContext this in
  let! items := lift (parseTableExpressionOrList ctx table) in
  QueryBuilder.new
    {| queryId := qid;
       qb_executor := executor p;
       qb_adapter := adapter p;
       queryNode := SelectQueryNode_create items |}.

(** The object literal [{ ...props, executor: e }]. *)
Definition withExecutor (p : SubQueryBuilderProps) (e : loc)
  : SubQueryBuilderProps := {| executor := e; adapter := adapter p |}.

Definition withSchema (this : loc) (schema : string) : M loc :=
  let! p := props this in
  let! e := withPluginAtFront (executor p) (WithSchemaPlugin schema) in
  new (withExecutor p e).
End Methods.
End SubQueryBuilder.

(** ** Awaiting a builder *)

Inductive Class : Type :=
| JoinBuilderClass
| SubQueryBuilderClass
| OtherClass.

Definition classOf (o : Obj) : Class :=
  match o with
  | OJoinBuilder _ => JoinBuilderClass
  | OSubQueryBuilder _ => SubQueryBuilderClass
  | _ => OtherClass
  end.

Definition Class_eqb (a b : Class) : bool :=
  match a, b with
  | JoinBuilderClass, JoinBuilderClass => true
  | SubQueryBuilderClass, SubQueryBuilderClass => true
  | OtherClass, OtherClass => true
  | _, _ => false
  end.

(** For each class, the diagnostic of the [then] guard installed on its
    prototype, if any. *)
Definition Prototypes : Type := Class -> option string.

Definition noGuards : Prototypes := fun _ => None.

(** Modelled from the spec: [preventAwait(clazz, message)] of
    [util/prevent-await] (section 5 and [MisuseError] in section 7): after
    the call, awaiting an instance of [clazz] fails with the diagnostic
    [message]. *)
Definition preventAwait (clazz : Class) (message : string)
    (protos : Prototypes) : Prototypes :=
  fun c => if Class_eqb c clazz then Some message else protos c.

(** The top-level statements of [join-builder.ts]: besides the class
    declaration, one [preventAwait] call. *)
Definition join_builder_module (protos : Prototypes) : Prototypes :=
  preventAwait JoinBuilderClass
    "don't await JoinBuilder instances. They are never executed directly and are always just a part of a query."
    protos.

(** The top-level statements of [sub-query-builder.ts]: the class
    declaration only. *)
Definition sub_query_builder_module (protos : Prototypes) : Prototypes :=
  protos.

Definition loadedPrototypes : Prototypes :=
  sub_query_builder_module (join_builder_module noGuards).

(** [await v] for an object [v]: a guarded class throws its diagnostic, an
    object without [then] is not a thenable and the await yields [v]. *)
Definition await (protos : Prototypes) (v : loc) : M loc :=
  fun s => match heap s !! v with
           | Some o => match protos (classOf o) with
                       | Some message => (Throw (MisuseError message), s)
                       | None => (Ok v, s)
                       end
           | None => (Throw TypeError, s)
           end.

(** ** Calls and call sequences *)

(** The [on]-family methods of [JoinBuilder] with their arguments. *)
Inductive Link : Type :=
| On (args : list JsValue)
| OrOn (args : list JsValue)
| OnRef (lhs op rhs : JsValue)
| OrOnRef (lhs op rhs : JsValue)
| OnExists (arg : JsValue)
| OnNotExists (arg : JsValue)
| OrOnExists (arg : JsValue)
| OrOnNotExists (arg : JsValue)
| OnTrue.

Definition applyLink `{Collaborators} (l : Link) (this : loc) : M loc :=
  match l with
  | On args => JoinBuilder.on this args
  | OrOn args => JoinBuilder.orOn this args
  | OnRef lhs op rhs => JoinBuilder.onRef this lhs op rhs
  | OrOnRef lhs op rhs => JoinBuilder.orOnRef this lhs op rhs
  | OnExists arg => JoinBuilder.onExists this arg
  | OnNotExists arg => JoinBuilder.onNotExists this arg
  | OrOnExists arg => JoinBuilder.orOnExists this arg
  | OrOnNotExists arg => JoinBuilder.orOnNotExists this arg
  | OnTrue => JoinBuilder.onTrue this
  end.

(** A fluent chain [b.m1(..).m2(..)...]: each method runs on the builder the
    previous one returned. *)
Fixpoint chain `{Collaborators} (ls : list Link) (this : loc) : M loc :=
  match ls with
  | [] => ret this
  | l :: ls' => let! b := applyLink l this in chain ls' b
  end.

(** One call of a public method on a receiver. *)
Inductive Call : Type :=
| CallLink (this : loc) (l : Link)
| CallToOperationNode (this : loc)
| CallSubQuery (this : loc) (table : JsValue)
| CallWithSchema (this : loc) (schema : string).

Definition run `{Collaborators} (c : Call) : M loc :=
  match c with
  | CallLink this l => applyLink l this
  | CallToOperationNode this => JoinBuilder.toOperationNode this
  | CallSubQuery this table => SubQueryBuilder.subQuery this table
  | CallWithSchema this schema => SubQueryBuilder.withSchema this schema
  end.

(** The calls that hand out a builder (all but the accessor). *)
Definition returnsBuilder (c : Call) : bool :=
  match c with
  | CallToOperationNode _ => false
  | _ => true
  end.

(** The store after a sequence of calls, whether they return or throw. *)
Definition runAll `{Collaborators} (cs : list Call) (s : State) : State :=
  fold_left (fun s c => snd (run c s)) cs s.

(** ** Observations *)

(** The join node a [JoinBuilder] hands to the compiler, by contents. *)
Definition nodeOf (s : State) (b : loc) : option JoinNode :=
  match heap s !! b with
  | Some (OJoinBuilder p) =>
      match heap s !! joinNode p with
      | Some (OJoinNode n) => Some n
      | _ => None
      end
  | _ => None
  end.

Definition clauseOf (s : State) (b : loc) : option OperationNode :=
  match nodeOf s b with
  | Some n => on_clause n
  | None => None
  end.

Definition queryBuilderAt (s : State) (q : loc) : option QueryBuilderProps :=
  match heap s !! q with
  | Some (OQueryBuilder p) => Some p
  | _ => None
  end.

Definition subQueryBuilderAt (s : State) (b : loc)
  : option SubQueryBuilderProps :=
  match heap s !! b with
  | Some (OSubQueryBuilder p) => Some p
  | _ => None
  end.

Definition pluginsAt (s : State) (e : loc) : option (list Plugin) :=
  match heap s !! e with
  | Some (OExecutor ps) => Some ps
  | _ => None
  end.

(** What a caller can observe of a returned object without comparing
    references: a join builder by the contents of its node, a sub-query
    builder by its adapter and by the plugin chain of its executor, a query
    builder by its props record. *)
Inductive Observation : Type :=
| ObsJoinBuilder (n : JoinNode)
| ObsJoinNode (n : JoinNode)
| ObsSubQueryBuilder (plugins : list Plugin) (adapter : loc)
| ObsQueryBuilder (p : QueryBuilderProps)
| ObsOther.

Definition observe (s : State) (l : loc) : option Observation :=
  match heap s !! l with
  | Some (OJoinBuilder _) => ObsJoinBuilder <$> nodeOf s l
  | Some (OJoinNode n) => Some (ObsJoinNode n)
  | Some (OSubQueryBuilder p) =>
      (fun ps => ObsSubQueryBuilder ps (adapter p)) <$> pluginsAt s (executor p)
  | Some (OQueryBuilder p) => Some (ObsQueryBuilder p)
  | Some _ => Some ObsOther
  | None => None
  end.

(** A query builder's props with the query identifier blanked. *)
Definition eraseQueryId (o : Observation) : Observation :=
  match o with
  | ObsQueryBuilder p =>
      ObsQueryBuilder {| queryId := 0; qb_executor := qb_executor p;
                         qb_adapter := qb_adapter p;
                         queryNode := queryNode p |}
  | _ => o
  end.

(** The outcome of a call as a caller sees it: the error, or the
    observation of the returned object. *)
Definition outcome (r : Result loc) (s : State)
  : Result (option Observation) :=
  match r with
  | Ok l => Ok (observe s l)
  | Throw e => Throw e
  end.

(** ** The expected shape of an [on] clause *)

Inductive Connective : Type := Conj | Disj.

(** Extending a clause the way a SQL [WHERE] clause grows: the new fragment
    is joined to the whole clause accumulated so far. *)
Definition connect (k : Connective) (clause : option OperationNode)
    (f : OperationNode) : OperationNode :=
  match clause, k with
  | None, _ => f
  | Some c, Conj => AndNode c f
  | Some c, Disj => OrNode c f
  end.

Definition expectedClause (start : option OperationNode)
    (steps : list (Connective * OperationNode)) : option OperationNode :=
  fold_left (fun acc kf => Some (connect (fst kf) acc (snd kf))) steps start.

(** Which primitive a method extends the node with, and which parser
    produces its fragment. *)
Definition connectiveOf (l : Link) : Connective :=
  match l with
  | On _ | OnRef _ _ _ | OnExists _ | OnNotExists _ | OnTrue => Conj
  | OrOn _ | OrOnRef _ _ _ | OrOnExists _ | OrOnNotExists _ => Disj
  end.

Definition fragmentOf `{Collaborators} (l : Link) : Result OperationNode :=
  match l with
  | On args | OrOn args => parseOn args
  | OnRef lhs op rhs | OrOnRef lhs op rhs =>
      parseReferentialComparison lhs op rhs
  | OnExists arg | OrOnExists arg => parseExists arg
  | OnNotExists arg | OrOnNotExists arg => parseNotExists arg
  | OnTrue => Ok (RawNode_createWithSql "true")
  end.

Definition cloneOf `{Collaborators} (k : Connective)
  : JoinNode -> OperationNode -> JoinNode :=
  match k with
  | Conj => cloneWithOn
  | Disj => cloneWithOrOn
  end.

(** ** A reference implementation of the collaborators *)

(** Modelled from the spec: the supported comparison-operator vocabulary of
    [parser/binary-operation-parser] (section 4.1: "equality, inequality,
    ordering, set-membership, pattern-match, null-checks"). *)
Definition OPERATORS : list string :=
  ["="; "=="; "!="; "<>"; ">"; ">="; "<"; "<="; "in"; "not in"; "is";
   "is not"; "like"; "not like"].

(** Modelled from the spec: membership in the operator vocabulary. *)
Definition isOperator (op : string) : bool :=
  existsb (String.eqb op) OPERATORS.

(** Modelled from the spec: reference parsing (sections 4.1 and 7): a
    reference is a column name or an expression; anything else is an
    [InvalidOperand] failure. *)
Definition specParseReference (v : JsValue) : Result OperationNode :=
  match v with
  | JsLit (LString column) => Ok (ReferenceNode column)
  | JsExpression n | JsFactory n => Ok n
  | _ => Throw InvalidOperand
  end.

(** Modelled from the spec: value parsing (section 4.1): a value is a
    literal, a list or an expression. *)
Definition specParseValue (v : JsValue) : OperationNode :=
  match v with
  | JsLit l => ValueNode l
  | JsArray items => ValueListNode items
  | JsExpression n | JsFactory n => n
  end.

(** Modelled from the spec: operator parsing (sections 4.1 and 7): an
    operator outside the vocabulary is an [InvalidOperator] failure. *)
Definition specParseOperator (v : JsValue) : Result string :=
  match v with
  | JsLit (LString op) =>
      if isOperator op then Ok op else Throw (InvalidOperator op)
  | _ => Throw (InvalidOperator "")
  end.

(** Modelled from the spec: [parseOn(args)] (sections 4.1 and 6): the
    three-argument form is a comparison, the one-argument form an expression
    or a factory; anything else is an [InvalidArgument] failure. *)
Definition specParseOn (args : list JsValue) : Result OperationNode :=
  match args with
  | [lhs; op; rhs] =>
      match specParseOperator op, specParseReference lhs with
      | Throw e, _ => Throw e
      | Ok _, Throw e => Throw e
      | Ok o, Ok l => Ok (BinaryOperationNode l o (specParseValue rhs))
      end
  | [JsExpression n] | [JsFactory n] => Ok n
  | _ => Throw InvalidArgument
  end.

(** Modelled from the spec: [parseReferentialComparison] (sections 4.1 and
    6): both operands must resolve to references. *)
Definition specParseReferentialComparison (lhs op rhs : JsValue)
  : Result OperationNode :=
  match specParseOperator op, specParseReference lhs, specParseReference rhs with
  | Throw e, _, _ => Throw e
  | Ok _, Throw e, _ => Throw e
  | Ok _, Ok _, Throw e => Throw e
  | Ok o, Ok l, Ok r => Ok (BinaryOperationNode l o r)
  end.

(** Modelled from the spec: [parseExists] (section 6): the argument wrapped
    in an existence predicate. *)
Definition specParseExists (arg : JsValue) : Result OperationNode :=
  Ok (UnaryOperationNode "exists" (specParseValue arg)).

(** Modelled from the spec: [parseNotExists] (section 6): the argument
    wrapped in a non-existence predicate. *)
Definition specParseNotExists (arg : JsValue) : Result OperationNode :=
  Ok (UnaryOperationNode "not exists" (specParseValue arg)).

(** Modelled from the spec: the contents of [JoinNode.cloneWithOn(n, f)]
    (sections 3 and 6): [f] conjuncted onto the clause of [n], if any. *)
Definition specCloneWithOn (n : JoinNode) (f : OperationNode) : JoinNode :=
  {| joinType := joinType n; table := table n;
     on_clause := Some match on_clause n with
                       | Some c => AndNode c f
                       | None => f
                       end |}.

(** Modelled from the spec: the contents of [JoinNode.cloneWithOrOn(n, f)]
    (sections 3 and 6): [f] disjuncted onto the clause of [n], if any. *)
Definition specCloneWithOrOn (n : JoinNode) (f : OperationNode) : JoinNode :=
  {| joinType := joinType n; table := table n;
     on_clause := Some match on_clause n with
                       | Some c => OrNode c f
                       | None => f
                       end |}.

(** Modelled from the spec: the parse context of [parser/parse-context]
    (section 2: configuration derived from the dialect adapter). *)
Record SpecParseContext : Type := mkSpecParseContext {
  ctx_adapter : loc
}.

(** Modelled from the spec: one table expression (section 4.2): a table
    name parses to a table node; a value of another shape is an
    [InvalidTableExpression] failure. *)
Definition specParseTableExpression (l : Literal)
  : Result TableExpressionNode :=
  match l with
  | LString t => Ok (TableNode t)
  | _ => Throw InvalidTableExpression
  end.

(** Modelled from the spec: a list of table expressions, parsed in order;
    the first failure is the failure of the list. *)
Fixpoint specParseTableList (ls : list Literal)
  : Result (list TableExpressionNode) :=
  match ls with
  | [] => Ok []
  | l :: ls' =>
      match specParseTableExpression l, specParseTableList ls' with
      | Ok t, Ok ts => Ok (t :: ts)
      | Throw e, _ => Throw e
      | _, Throw e => Throw e
      end
  end.

(** Modelled from the spec: [parseTableExpressionOrList(ctx, table)]
    (sections 4.2 and 6): one table expression, a list of them, or a raw
    fragment. *)
Definition specParseTableExpressionOrList (ctx : SpecParseContext)
    (table : JsValue) : Result (list TableExpressionNode) :=
  match table with
  | JsLit l => specParseTableList [l]
  | JsArray ls => specParseTableList ls
  | JsExpression (RawNode sql) => Ok [RawTableNode sql]
  | _ => Throw InvalidTableExpression
  end.

(** Modelled from the spec: the collaborators, assembled. *)
Definition specCollaborators : Collaborators :=
  {| parseOn := specParseOn;
     parseReferentialComparison := specParseReferentialComparison;
     parseExists := specParseExists;
     parseNotExists := specParseNotExists;
     cloneWithOn := specCloneWithOn;
     cloneWithOrOn := specCloneWithOrOn;
     ParseContext := SpecParseContext;
     createParseContext := mkSpecParseContext;
     parseTableExpressionOrList := specParseTableExpressionOrList |}.

(** ** A sample store

    An adapter, an executor without plugins, an inner join on [pet] without
    an [on] clause, a join builder over it and a sub-query builder. *)
Definition sampleState : State :=
  {| heap := [ OAdapter "postgres";
               OExecutor [];
               OJoinNode {| joinType := InnerJoin;
                            table := RawNode "pet";
                            on_clause := None |};
               OJoinBuilder {| joinNode := 2 |};
               OSubQueryBuilder {| executor := 1; adapter := 0 |} ];
     nextQueryId := 0 |}.

Definition sampleJoinBuilder : loc := 3.
Definition sampleSubQueryBuilder : loc := 4.

Definition str (s : string) : JsValue := JsLit (LString s).

(** [cmp(l, op, r)] of the spec's examples: column [l] compared with the
    value [r]. *)
Definition cmp (l op r : string) : OperationNode :=
  BinaryOperationNode (ReferenceNode l) op (ValueNode (LString r)).

(** The store with freshly allocated objects appended. *)
Definition grown (s : State) (objs : list Obj) : State :=
  {| heap := heap s ++ objs; nextQueryId := nextQueryId s |}.

(** The store after [createQueryId()]. *)
Definition idDrawn (s : State) : State :=
  {| heap := heap s; nextQueryId := S (nextQueryId s) |}.

Definition isBuilder (o : option Obj) : bool :=
  match o with
  | Some (OJoinBuilder _) | Some (OSubQueryBuilder _)
  | Some (OQueryBuilder _) => true
  | _ => false
  end.

(** The sample store with a second join, whose [on] clause is
    [cmp(a,=,b)], and a join builder over it. *)
Definition sampleStateWithClause : State :=
  grown sampleState
    [ OJoinNode {| joinType := LeftJoin;
                   table := RawNode "person";
                   on_clause := Some (cmp "a" "=" "b") |};
      OJoinBuilder {| joinNode := 5 |} ].

Definition sampleJoinBuilderWithClause : loc := 6.

(** [m] run in [s] returns an object that satisfies [P] in the resulting
    store. *)
Definition yields (m : M loc) (s : State) (P : State -> loc -> Prop) : Prop :=
  exists b' s', m s = (Ok b', s') /\ P s' b'.

(** The outcome with the query identifier blanked. *)
Definition eraseOutcome (r : Result (option Observation))
  : Result (option Observation) :=
  match r with
  | Ok o => Ok (eraseQueryId <$> o)
  | Throw e => Throw e
  end.

(** Two runs of the same call, one after the other in the same process:
    what the caller sees of the first and of the second. *)
Definition firstRun `{Collaborators} (c : Call) (s : State)
  : Result (option Observation) :=
  outcome (fst (run c s)) (snd (run c s)).

Definition secondRun `{Collaborators} (c : Call) (s : State)
  : Result (option Observation) :=
  let s1 := snd (run c s) in
  outcome (fst (run c s1)) (snd (run c s1)).

Definition isSubQuery (c : Call) : bool :=
  match c with
  | CallSubQuery _ _ => true
  | _ => false
  end.

(** The node after a sequence of clone steps, oldest first. *)
Definition cloneAll `{Collaborators} (n : JoinNode)
    (steps : list (Connective * OperationNode)) : JoinNode :=
  fold_left (fun n kf => cloneOf (fst kf) n (snd kf)) steps n.

(** The methods the design rule of section 4.1 calls conjunctive. *)
Definition isPrimary (l : Link) : bool :=
  match l with
  | On _ | OnRef _ _ _ | OnTrue => true
  | _ => false
  end.

(** ** Chains, call sequences and store invariants *)

(** The contents of the node a fluent chain ends with, computed on node
    contents alone: each method clones the node with its fragment, and the
    first parser failure ends the chain. *)
Fixpoint chainNode `{Collaborators} (ls : list Link) (n : JoinNode)
  : Result JoinNode :=
  match ls with
  | [] => Ok n
  | l :: ls' =>
      match fragmentOf l with
      | Ok f => chainNode ls' (cloneOf (connectiveOf l) n f)
      | Throw e => Throw e
      end
  end.

(** What a caller sees of a join builder over the given node. *)
Definition joinOutcome (r : Result JoinNode) : Result (option Observation) :=
  match r with
  | Ok n => Ok (Some (ObsJoinBuilder n))
  | Throw e => Throw e
  end.

(** [b.withSchema(s1).withSchema(s2)...], in call order. *)
Fixpoint withSchemas (schemas : list string) (this : loc) : M loc :=
  match schemas with
  | [] => ret this
  | schema :: rest =>
      let! b := SubQueryBuilder.withSchema this schema in
      withSchemas rest b
  end.

Definition holdsJoinNode (s : State) (l : loc) : bool :=
  match heap s !! l with
  | Some (OJoinNode _) => true
  | _ => false
  end.

Definition holdsExecutor (s : State) (l : loc) : bool :=
  match heap s !! l with
  | Some (OExecutor _) => true
  | _ => false
  end.

Definition holdsAdapter (s : State) (l : loc) : bool :=
  match heap s !! l with
  | Some (OAdapter _) => true
  | _ => false
  end.

(** An object is well typed in a store when its references hold objects of
    the declared classes ([joinNode: JoinNode], [executor:
    NoopQueryExecutor], [adapter: DialectAdapter]) and, for a query builder,
    its identifier has been drawn already. *)
Definition objectOk (s : State) (o : Obj) : bool :=
  match o with
  | OJoinBuilder p => holdsJoinNode s (joinNode p)
  | OSubQueryBuilder p =>
      holdsExecutor s (executor p) && holdsAdapter s (adapter p)
  | OQueryBuilder p =>
      holdsExecutor s (qb_executor p) && holdsAdapter s (qb_adapter p)
      && Nat.ltb (queryId p) (nextQueryId s)
  | _ => true
  end.

Definition wellFormed (s : State) : bool := forallb (objectOk s) (heap s).

Definition queryIdOf (o : Obj) : list nat :=
  match o with
  | OQueryBuilder p => [queryId p]
  | _ => []
  end.

(** The identifiers of the query builders of a store, oldest first. *)
Definition queryIds (s : State) : list nat := flat_map queryIdOf (heap s).

Definition countSubQueries (cs : list Call) : nat :=
  length (List.filter isSubQuery cs).

(** * Proofs *)

(** ** What each method does to the store *)

Section NormalForms.
Context `{Collaborators}.

Lemma applyLink_run (l : Link) (this : loc) (s : State) :
  applyLink l this s =
  match heap s !! this with
  | Some (OJoinBuilder p) =>
      match fragmentOf l with
      | Throw e => (Throw e, s)
      | Ok f =>
          match heap s !! joinNode p with
          | Some (OJoinNode n) =>
              (Ok (S (length (heap s))),
               grown s [OJoinNode (cloneOf (connectiveOf l) n f);
                        OJoinBuilder {| joinNode := length (heap s) |}])
          | _ => (Throw TypeError, s)
          end
      end
  | _ => (Throw TypeError, s)
  end.
Proof.
  destruct l; cbn -[lookup];
    unfold JoinBuilder.on, JoinBuilder.orOn, JoinBuilder.onRef,
      JoinBuilder.orOnRef, JoinBuilder.onExists, JoinBuilder.onNotExists,
      JoinBuilder.orOnExists, JoinBuilder.orOnNotExists, JoinBuilder.onTrue,
      JoinNode_cloneWithOn, JoinNode_cloneWithOrOn, JoinBuilder.new,
      JoinBuilder.props, readJoinNode, alloc, bind, lift, grown;
    destruct (heap s !! this) as [[]|] eqn:Hb; try reflexivity.
  all: match goal with
       | |- context [match ?r with Ok _ => ret _ | Throw _ => throw _ end] =>
           destruct r as [f|e]; cbn -[lookup]; try reflexivity
       | _ => cbn -[lookup]
       end.
  all: destruct (heap s !! joinNode props) as [[]|]; cbn; try reflexivity.
  all: rewrite length_app, <- app_assoc; cbn; rewrite Nat.add_1_r; reflexivity.
Qed.

Lemma toOperationNode_run (this : loc) (s : State) :
  JoinBuilder.toOperationNode this s =
  match heap s !! this with
  | Some (OJoinBuilder p) => (Ok (joinNode p), s)
  | _ => (Throw TypeError, s)
  end.
Proof.
  unfold JoinBuilder.toOperationNode, JoinBuilder.props, bind, ret.
  destruct (heap s !! this) as [[]|]; reflexivity.
Qed.

Lemma subQuery_run (this : loc) (table : JsValue) (s : State) :
  SubQueryBuilder.subQuery this table s =
  match heap s !! this with
  | Some (OSubQueryBuilder p) =>
      match parseTableExpressionOrList
              (createParseContext (adapter p)) table with
      | Ok items =>
          (Ok (length (heap s)),
           grown (idDrawn s)
             [OQueryBuilder
                {| queryId := nextQueryId s;
                   qb_executor := executor p;
                   qb_adapter := adapter p;
                   queryNode := SelectQueryNode_create items |}])
      | Throw e => (Throw e, idDrawn s)
      end
  | _ => (Throw TypeError, idDrawn s)
  end.
Proof.
  unfold SubQueryBuilder.subQuery, SubQueryBuilder.parseContext,
    SubQueryBuilder.props, QueryBuilder.new, createQueryId, alloc, bind,
    ret, lift, grown, idDrawn; cbn -[lookup].
  destruct (heap s !! this) as [[]|] eqn:Hb; cbn -[lookup];
    rewrite ?Hb; try reflexivity.
  destruct (parseTableExpressionOrList _ _); reflexivity.
Qed.

Lemma withSchema_run (this : loc) (schema : string) (s : State) :
  SubQueryBuilder.withSchema this schema s =
  match heap s !! this with
  | Some (OSubQueryBuilder p) =>
      match heap s !! executor p with
      | Some (OExecutor ps) =>
          (Ok (S (length (heap s))),
           grown s [OExecutor (WithSchemaPlugin schema :: ps);
                    OSubQueryBuilder {| executor := length (heap s);
                                        adapter := adapter p |}])
      | _ => (Throw TypeError, s)
      end
  | _ => (Throw TypeError, s)
  end.
Proof.
  unfold SubQueryBuilder.withSchema, SubQueryBuilder.props,
    SubQueryBuilder.new, SubQueryBuilder.withExecutor, withPluginAtFront,
    readExecutor, alloc, bind, grown; cbn -[lookup].
  destruct (heap s !! this) as [[]|]; try reflexivity.
  destruct (heap s !! executor props) as [[]|]; cbn; try reflexivity.
  rewrite length_app, <- app_assoc; cbn; rewrite Nat.add_1_r; reflexivity.
Qed.

(** ** The store only grows *)

Lemma run_heap_prefix (c : Call) (s : State) :
  heap s `prefix_of` heap (snd (run c s)).
Proof.
  destruct c as [this l|this|this table|this schema]; unfold run.
  - rewrite applyLink_run.
    destruct (heap s !! this) as [[]|]; try reflexivity.
    destruct (fragmentOf l); try reflexivity.
    destruct (heap s !! joinNode props) as [[]|]; try reflexivity.
    cbn. apply prefix_app_r. reflexivity.
  - rewrite toOperationNode_run.
    destruct (heap s !! this) as [[]|]; reflexivity.
  - rewrite subQuery_run.
    destruct (heap s !! this) as [[]|]; try reflexivity.
    destruct (parseTableExpressionOrList _ _); try reflexivity.
    cbn. apply prefix_app_r. reflexivity.
  - rewrite withSchema_run.
    destruct (heap s !! this) as [[]|]; try reflexivity.
    destruct (heap s !! executor props) as [[]|]; try reflexivity.
    cbn. apply prefix_app_r. reflexivity.
Qed.

Lemma run_counter_le (c : Call) (s : State) :
  nextQueryId s <= nextQueryId (snd (run c s)).
Proof.
  destruct c as [this l|this|this table|this schema]; unfold run.
  - rewrite applyLink_run.
    destruct (heap s !! this) as [[]|]; try reflexivity.
    destruct (fragmentOf l); try reflexivity.
    destruct (heap s !! joinNode props) as [[]|]; reflexivity.
  - rewrite toOperationNode_run.
    destruct (heap s !! this) as [[]|]; reflexivity.
  - rewrite subQuery_run.
    destruct (heap s !! this) as [[]|]; cbn; try lia.
    destruct (parseTableExpressionOrList _ _); cbn; lia.
  - rewrite withSchema_run.
    destruct (heap s !! this) as [[]|]; try reflexivity.
    destruct (heap s !! executor props) as [[]|]; reflexivity.
Qed.

Lemma runAll_heap_prefix (cs : list Call) (s : State) :
  heap s `prefix_of` heap (runAll cs s).
Proof.
  revert s. induction cs as [|c cs IH]; intros s; cbn.
  - reflexivity.
  - etransitivity; [apply run_heap_prefix | apply IH].
Qed.

Lemma runAll_counter_le (cs : list Call) (s : State) :
  nextQueryId s <= nextQueryId (runAll cs s).
Proof.
  revert s. induction cs as [|c cs IH]; intros s; cbn.
  - reflexivity.
  - etransitivity; [apply run_counter_le | apply IH].
Qed.

(** Observations are stable when the store grows. *)
Lemma nodeOf_stable (s s' : State) (b : loc) (n : JoinNode) :
  heap s `prefix_of` heap s' -> nodeOf s b = Some n -> nodeOf s' b = Some n.
Proof.
  intros Hpre. unfold nodeOf.
  destruct (heap s !! b) as [[]|] eqn:Hb; try discriminate.
  destruct (heap s !! joinNode props) as [[]|] eqn:Hn; try discriminate.
  intros [= <-].
  rewrite (prefix_lookup_Some _ _ _ _ Hb Hpre).
  rewrite (prefix_lookup_Some _ _ _ _ Hn Hpre). reflexivity.
Qed.

Lemma observe_stable (s s' : State) (l : loc) (o : Observation) :
  heap s `prefix_of` heap s' -> observe s l = Some o -> observe s' l = Some o.
Proof.
  intros Hpre. unfold observe.
  destruct (heap s !! l) as [obj|] eqn:Hl; try discriminate.
  rewrite (prefix_lookup_Some _ _ _ _ Hl Hpre).
  destruct obj; try tauto.
  - destruct (nodeOf s l) as [n|] eqn:Hn; try discriminate.
    rewrite (nodeOf_stable _ _ _ _ Hpre Hn). tauto.
  - unfold pluginsAt.
    destruct (heap s !! executor props) as [[]|] eqn:He; try discriminate.
    rewrite (prefix_lookup_Some _ _ _ _ He Hpre). tauto.
Qed.
End NormalForms.

(** ** Immutability *)

Section Immutability.
Context `{Collaborators}.

Lemma withSchema_counter (this : loc) (schema : string) (s : State) :
  nextQueryId (snd (SubQueryBuilder.withSchema this schema s))
  = nextQueryId s.
Proof.
  rewrite withSchema_run.
  destruct (heap s !! this) as [[]|]; try reflexivity.
  destruct (heap s !! executor props) as [[]|]; reflexivity.
Qed.

Lemma lookup_fresh (objs : list Obj) (o : Obj) (rest : list Obj) :
  (objs ++ o :: rest) !! length objs = Some o.
Proof. apply list_lookup_middle. reflexivity. Qed.

Lemma lookup_fresh_next (objs : list Obj) (o o' : Obj) :
  (objs ++ [o; o']) !! S (length objs) = Some o'.
Proof.
  change (objs ++ [o; o']) with (objs ++ [o] ++ [o']).
  rewrite app_assoc.
  replace (S (length objs)) with (length (objs ++ [o]))
    by (rewrite length_app; cbn; lia).
  apply lookup_fresh.
Qed.

Lemma subQuery_outcome (b : loc) (p : SubQueryBuilderProps)
    (table : JsValue) (s : State) :
  subQueryBuilderAt s b = Some p ->
  outcome (fst (SubQueryBuilder.subQuery b table s))
          (snd (SubQueryBuilder.subQuery b table s))
  = match parseTableExpressionOrList
            (createParseContext (adapter p)) table with
    | Ok items =>
        Ok (Some (ObsQueryBuilder
                    {| queryId := nextQueryId s;
                       qb_executor := executor p;
                       qb_adapter := adapter p;
                       queryNode := SelectQueryNode_create items |}))
    | Throw e => Throw e
    end.
Proof.
  unfold subQueryBuilderAt. rewrite subQuery_run.
  destruct (heap s !! b) as [[]|]; try discriminate.
  intros [= ->].
  destruct (parseTableExpressionOrList _ _); [|reflexivity].
  cbn -[lookup]. unfold observe. cbn -[lookup].
  rewrite lookup_fresh. reflexivity.
Qed.

Lemma subQueryBuilderAt_stable (s s' : State) (b : loc)
    (p : SubQueryBuilderProps) :
  heap s `prefix_of` heap s' ->
  subQueryBuilderAt s b = Some p -> subQueryBuilderAt s' b = Some p.
Proof.
  intros Hpre. unfold subQueryBuilderAt.
  destruct (heap s !! b) as [o|] eqn:Hb; try discriminate.
  rewrite (prefix_lookup_Some _ _ _ _ Hb Hpre). tauto.
Qed.

Lemma pluginsAt_stable (s s' : State) (e : loc) (ps : list Plugin) :
  heap s `prefix_of` heap s' ->
  pluginsAt s e = Some ps -> pluginsAt s' e = Some ps.
Proof.
  intros Hpre. unfold pluginsAt.
  destruct (heap s !! e) as [o|] eqn:He; try discriminate.
  rewrite (prefix_lookup_Some _ _ _ _ He Hpre). tauto.
Qed.

(** A call that returns a builder returns a location that was free
    before the call and holds a builder after it. *)
Lemma run_returns_fresh (c : Call) (s : State) (b' : loc) :
  returnsBuilder c = true -> fst (run c s) = Ok b' ->
  heap s !! b' = None /\ isBuilder (heap (snd (run c s)) !! b') = true.
Proof.
  destruct c as [this l|this|this table|this schema]; unfold run;
    [| discriminate | |]; intros _.
  - rewrite applyLink_run.
    destruct (heap s !! this) as [[]|]; try discriminate.
    destruct (fragmentOf l); try discriminate.
    destruct (heap s !! joinNode props) as [[]|]; try discriminate.
    cbn -[lookup]. intros [= <-]. split.
    + apply lookup_ge_None. lia.
    + rewrite lookup_fresh_next. reflexivity.
  - rewrite subQuery_run.
    destruct (heap s !! this) as [[]|]; try discriminate.
    destruct (parseTableExpressionOrList _ _); try discriminate.
    cbn -[lookup]. intros [= <-]. split.
    + apply lookup_ge_None. lia.
    + rewrite lookup_fresh. reflexivity.
  - rewrite withSchema_run.
    destruct (heap s !! this) as [[]|]; try discriminate.
    destruct (heap s !! executor props) as [[]|]; try discriminate.
    cbn -[lookup]. intros [= <-]. split.
    + apply lookup_ge_None. lia.
    + rewrite lookup_fresh_next. reflexivity.
Qed.

(** C1 (immutability).  For every public method call [c] (the nine
    [on]-family methods, [toOperationNode], [subQuery], [withSchema]) on
    any receiver in any store:
    - every object that existed before the call is the same object after
      it, and so is what can be observed of it;
    - a builder the call returns is a new instance: its location was free
      before the call and holds a builder after it;
    - [toOperationNode()] of any join builder returns the same node
      reference after the call as before it, and the node has the same
      contents;
    - [subQuery] on a sub-query builder that existed before a [withSchema]
      call (on any receiver) builds the same query builder after that call
      as before it, over the same executor with the same plugin chain. *)
Theorem builder_calls_are_immutable (c : Call) (s : State) :
  (forall l o, heap s !! l = Some o -> heap (snd (run c s)) !! l = Some o)
  /\ (forall b o, observe s b = Some o ->
                  observe (snd (run c s)) b = Some o)
  /\ (forall b', returnsBuilder c = true -> fst (run c s) = Ok b' ->
        heap s !! b' = None
        /\ isBuilder (heap (snd (run c s)) !! b') = true)
  /\ (forall b n nd,
        fst (JoinBuilder.toOperationNode b s) = Ok n ->
        heap s !! n = Some (OJoinNode nd) ->
        JoinBuilder.toOperationNode b (snd (run c s))
        = (Ok n, snd (run c s))
        /\ heap (snd (run c s)) !! n = Some (OJoinNode nd))
  /\ (forall b0 schema b p ps table,
        subQueryBuilderAt s b = Some p ->
        pluginsAt s (executor p) = Some ps ->
        let s1 := snd (SubQueryBuilder.withSchema b0 schema s) in
        outcome (fst (SubQueryBuilder.subQuery b table s1))
                (snd (SubQueryBuilder.subQuery b table s1))
        = outcome (fst (SubQueryBuilder.subQuery b table s))
                  (snd (SubQueryBuilder.subQuery b table s))
        /\ pluginsAt (snd (SubQueryBuilder.subQuery b table s1))
                     (executor p) = Some ps).
Proof.
  pose proof (run_heap_prefix c s) as Hpre.
  split; [|split; [|split; [|split]]].
  - intros l o Hl. exact (prefix_lookup_Some _ _ _ _ Hl Hpre).
  - intros b o. apply observe_stable, Hpre.
  - apply run_returns_fresh.
  - intros b n nd Hn Hnd.
    rewrite toOperationNode_run in Hn |- *.
    destruct (heap s !! b) as [[]|] eqn:Hb; try discriminate.
    cbn in Hn. injection Hn as <-.
    rewrite (prefix_lookup_Some _ _ _ _ Hb Hpre).
    split; [reflexivity|]. exact (prefix_lookup_Some _ _ _ _ Hnd Hpre).
  - intros b0 schema b p ps table Hb Hps s1.
    assert (Hpre1 : heap s `prefix_of` heap s1)
      by apply (run_heap_prefix (CallWithSchema b0 schema) s).
    assert (Hpre2 : heap s1 `prefix_of`
                    heap (snd (SubQueryBuilder.subQuery b table s1)))
      by apply (run_heap_prefix (CallSubQuery b table) s1).
    split.
    + rewrite (subQuery_outcome b p table s Hb).
      rewrite (subQuery_outcome b p table s1
                 (subQueryBuilderAt_stable _ _ _ _ Hpre1 Hb)).
      unfold s1. rewrite withSchema_counter. reflexivity.
    + eapply pluginsAt_stable; [|exact Hps].
      etransitivity; eassumption.
Qed.
End Immutability.

(** C1 at the sample store: after [withSchema("s")] on the sample sub-query
    builder, the sample join builder and the sample sub-query builder are
    what they were, the returned builder sits at a new location, and the
    sample sub-query builder still builds its sub-queries over the executor
    without plugins. *)
Lemma builder_calls_are_immutable_witness :
  heap (snd (run (H := specCollaborators)
               (CallWithSchema sampleSubQueryBuilder "s") sampleState))
    !! sampleSubQueryBuilder
  = Some (OSubQueryBuilder {| executor := 1; adapter := 0 |})
  /\ heap sampleState !! 6 = None
  /\ JoinBuilder.toOperationNode sampleJoinBuilder
       (snd (run (H := specCollaborators)
               (CallLink sampleJoinBuilder OnTrue) sampleState))
     = (Ok 2, snd (run (H := specCollaborators)
                     (CallLink sampleJoinBuilder OnTrue) sampleState))
  /\ pluginsAt
       (snd (SubQueryBuilder.subQuery (H := specCollaborators)
               sampleSubQueryBuilder (str "person")
               (snd (SubQueryBuilder.withSchema sampleSubQueryBuilder "s"
                       sampleState)))) 1
     = Some [].
Proof.
  destruct (builder_calls_are_immutable (H := specCollaborators)
              (CallWithSchema sampleSubQueryBuilder "s") sampleState)
    as (Hheap & _ & Hfresh & _ & Hsub).
  destruct (builder_calls_are_immutable (H := specCollaborators)
              (CallLink sampleJoinBuilder OnTrue) sampleState)
    as (_ & _ & _ & Hnode & _).
  split; [apply Hheap; reflexivity|].
  split; [exact (proj1 (Hfresh 6 eq_refl eq_refl))|].
  split; [exact (proj1 (Hnode sampleJoinBuilder 2 _ eq_refl eq_refl))|].
  exact (proj2 (Hsub sampleSubQueryBuilder "s" sampleSubQueryBuilder _ []
                 (str "person") eq_refl eq_refl)).
Defined.

(** ** The shape of the accumulated [on] clause *)

Section ClauseShape.
Context `{C : Collaborators}.

(** One [on]-family call on a join builder whose parser succeeds. *)
Lemma applyLink_ok (l : Link) (b : loc) (s : State) (n : JoinNode)
    (f : OperationNode) :
  nodeOf s b = Some n -> fragmentOf l = Ok f ->
  exists b' s',
    applyLink l b s = (Ok b', s')
    /\ nodeOf s' b' = Some (cloneOf (connectiveOf l) n f)
    /\ heap s !! b' = None.
Proof.
  unfold nodeOf. intros Hn Hf. rewrite applyLink_run, Hf.
  destruct (heap s !! b) as [[]|]; try discriminate.
  destruct (heap s !! joinNode props) as [[]|]; try discriminate.
  injection Hn as ->.
  eexists _, _. split; [reflexivity|]. split.
  - unfold grown; cbn -[lookup].
    rewrite lookup_fresh_next. cbn -[lookup].
    rewrite lookup_fresh. reflexivity.
  - apply lookup_ge_None. lia.
Qed.

(** One call whose parser fails. *)
Lemma applyLink_throw (l : Link) (b : loc) (s : State) (n : JoinNode)
    (e : Error) :
  nodeOf s b = Some n -> fragmentOf l = Throw e ->
  applyLink l b s = (Throw e, s).
Proof.
  unfold nodeOf. intros Hn Hf. rewrite applyLink_run, Hf.
  destruct (heap s !! b) as [[]|]; try discriminate. reflexivity.
Qed.

(** A chain whose parsers all succeed clones the node once per call, in
    call order. *)
Lemma chain_ok (ls : list Link) (fs : list OperationNode) :
  Forall2 (fun l f => fragmentOf l = Ok f) ls fs ->
  forall (b : loc) (s : State) (n : JoinNode),
    nodeOf s b = Some n ->
    exists b' s',
      chain ls b s = (Ok b', s')
      /\ nodeOf s' b' = Some (cloneAll n (zip (map connectiveOf ls) fs)).
Proof.
  induction 1 as [|l f ls fs Hf _ IH]; intros b s n Hn.
  - exists b, s. split; [reflexivity | exact Hn].
  - destruct (applyLink_ok l b s n f Hn Hf) as (b1 & s1 & Hrun & Hn1 & _).
    destruct (IH b1 s1 _ Hn1) as (b' & s' & Hchain & Hn').
    exists b', s'. split; [|exact Hn'].
    cbn [chain]. unfold bind. rewrite Hrun. exact Hchain.
Qed.

Context {NC : NodeContract C}.

Lemma cloneOf_contract (k : Connective) (n : JoinNode) (f : OperationNode) :
  cloneOf k n f =
  {| joinType := joinType n; table := table n;
     on_clause := Some (connect k (on_clause n) f) |}.
Proof.
  destruct k; cbn;
    [rewrite cloneWithOn_contract | rewrite cloneWithOrOn_contract];
    destruct (on_clause n); reflexivity.
Qed.

Lemma cloneAll_contract (steps : list (Connective * OperationNode))
    (n : JoinNode) :
  cloneAll n steps =
  {| joinType := joinType n; table := table n;
     on_clause := expectedClause (on_clause n) steps |}.
Proof.
  revert n. induction steps as [|[k f] steps IH]; intros n.
  - destruct n; reflexivity.
  - cbn. fold (cloneAll (cloneOf k n f) steps). rewrite IH.
    rewrite cloneOf_contract. reflexivity.
Qed.

Lemma clauseOf_nodeOf (s : State) (b : loc) (n : JoinNode) :
  nodeOf s b = Some n -> clauseOf s b = on_clause n.
Proof. unfold clauseOf. intros ->. reflexivity. Qed.

(** A chain of conjunctive calls folds its fragments to the left. *)
Lemma expectedClause_primary (ls : list Link) (fs : list OperationNode) :
  Forall2 (fun l f => fragmentOf l = Ok f) ls fs ->
  forallb isPrimary ls = true ->
  forall c,
    expectedClause (Some c) (zip (map connectiveOf ls) fs)
    = Some (fold_left AndNode fs c).
Proof.
  induction 1 as [|l f ls fs _ _ IH]; intros Hprim c.
  - reflexivity.
  - cbn in Hprim. apply andb_prop in Hprim as [Hl Hls].
    cbn. fold (expectedClause
                 (Some (connect (connectiveOf l) (Some c) f))
                 (zip (map connectiveOf ls) fs)).
    destruct l; try discriminate; cbn; apply IH, Hls.
Qed.

Lemma chain_clause (ls : list Link) (fs : list OperationNode)
    (b : loc) (s : State) (n : JoinNode) :
  nodeOf s b = Some n ->
  Forall2 (fun l f => fragmentOf l = Ok f) ls fs ->
  exists b' s',
    chain ls b s = (Ok b', s')
    /\ clauseOf s' b'
       = expectedClause (on_clause n) (zip (map connectiveOf ls) fs).
Proof.
  intros Hn Hfs.
  destruct (chain_ok ls fs Hfs b s n Hn) as (b' & s' & Hrun & Hn').
  exists b', s'. split; [exact Hrun|].
  rewrite (clauseOf_nodeOf _ _ _ Hn'), cloneAll_contract. reflexivity.
Qed.

(** C2 (AND/OR tree shape).  Under the contract of [cloneWithOn] and
    [cloneWithOrOn], for a join builder [b] with node [n]:
    - a chain of [on]/[onRef]/[onTrue] calls only, with fragments
      [f, f1, ..., fk] in call order, accumulates the left-associated tree
      [AND(...AND(AND(f, f1), f2)..., fk)], on top of the clause [b]
      already has, if any;
    - [orOn] on an accumulated clause [c] yields [OR(c, f)], and [on]
      yields [AND(c, f)]: the whole clause is the left operand;
    - from an empty clause, [on(c1).orOn(c2)] yields [OR(c1, c2)] and a
      subsequent [on(c3)] yields [AND(OR(c1, c2), c3)];
    - [on(c1).on(c2).orOn(c3).on(c4)] yields
      [AND(OR(AND(c1, c2), c3), c4)], that is (((c1) AND c2) OR c3) AND c4. *)
Theorem on_clause_tree_shape (b : loc) (s : State) (n : JoinNode) :
  nodeOf s b = Some n ->
  (forall ls f fs,
      on_clause n = None ->
      forallb isPrimary ls = true ->
      Forall2 (fun l f => fragmentOf l = Ok f) ls (f :: fs) ->
      exists b' s',
        chain ls b s = (Ok b', s')
        /\ clauseOf s' b' = Some (fold_left AndNode fs f))
  /\ (forall ls c fs,
        on_clause n = Some c ->
        forallb isPrimary ls = true ->
        Forall2 (fun l f => fragmentOf l = Ok f) ls fs ->
        exists b' s',
          chain ls b s = (Ok b', s')
          /\ clauseOf s' b' = Some (fold_left AndNode fs c))
  /\ (forall c args f,
        on_clause n = Some c -> parseOn args = Ok f ->
        (exists b' s',
            JoinBuilder.orOn b args s = (Ok b', s')
            /\ clauseOf s' b' = Some (OrNode c f))
        /\ (exists b' s',
              JoinBuilder.on b args s = (Ok b', s')
              /\ clauseOf s' b' = Some (AndNode c f)))
  /\ (forall a1 a2 a3 c1 c2 c3,
        on_clause n = None ->
        parseOn a1 = Ok c1 -> parseOn a2 = Ok c2 -> parseOn a3 = Ok c3 ->
        (exists b' s',
            chain [On a1; OrOn a2] b s = (Ok b', s')
            /\ clauseOf s' b' = Some (OrNode c1 c2))
        /\ (exists b' s',
              chain [On a1; OrOn a2; On a3] b s = (Ok b', s')
              /\ clauseOf s' b' = Some (AndNode (OrNode c1 c2) c3)))
  /\ (forall a1 a2 a3 a4 c1 c2 c3 c4,
        on_clause n = None ->
        parseOn a1 = Ok c1 -> parseOn a2 = Ok c2 ->
        parseOn a3 = Ok c3 -> parseOn a4 = Ok c4 ->
        exists b' s',
          chain [On a1; On a2; OrOn a3; On a4] b s = (Ok b', s')
          /\ clauseOf s' b'
             = Some (AndNode (OrNode (AndNode c1 c2) c3) c4)).
Proof.
  intros Hn. split; [|split; [|split; [|split]]].
  - intros ls f fs Hnone Hprim Hfs.
    destruct (chain_clause ls (f :: fs) b s n Hn Hfs)
      as (b' & s' & Hrun & Hcl).
    exists b', s'. split; [exact Hrun|]. rewrite Hcl, Hnone.
    inversion Hfs as [|l ? ls' ? Hl Hls']; subst.
    cbn in Hprim. apply andb_prop in Hprim as [_ Hprim].
    cbn. apply (expectedClause_primary ls' fs Hls' Hprim).
  - intros ls c fs Hsome Hprim Hfs.
    destruct (chain_clause ls fs b s n Hn Hfs) as (b' & s' & Hrun & Hcl).
    exists b', s'. split; [exact Hrun|]. rewrite Hcl, Hsome.
    apply (expectedClause_primary ls fs Hfs Hprim).
  - intros c args f Hsome Hf. split.
    + destruct (applyLink_ok (OrOn args) b s n f Hn Hf)
        as (b' & s' & Hrun & Hn' & _).
      exists b', s'. split; [exact Hrun|].
      rewrite (clauseOf_nodeOf _ _ _ Hn'), cloneOf_contract, Hsome.
      reflexivity.
    + destruct (applyLink_ok (On args) b s n f Hn Hf)
        as (b' & s' & Hrun & Hn' & _).
      exists b', s'. split; [exact Hrun|].
      rewrite (clauseOf_nodeOf _ _ _ Hn'), cloneOf_contract, Hsome.
      reflexivity.
  - intros a1 a2 a3 c1 c2 c3 Hnone H1 H2 H3. split.
    + destruct (chain_clause [On a1; OrOn a2] [c1; c2] b s n Hn)
        as (b' & s' & Hrun & Hcl).
      { repeat constructor; assumption. }
      exists b', s'. split; [exact Hrun|]. rewrite Hcl, Hnone. reflexivity.
    + destruct (chain_clause [On a1; OrOn a2; On a3] [c1; c2; c3] b s n Hn)
        as (b' & s' & Hrun & Hcl).
      { repeat constructor; assumption. }
      exists b', s'. split; [exact Hrun|]. rewrite Hcl, Hnone. reflexivity.
  - intros a1 a2 a3 a4 c1 c2 c3 c4 Hnone H1 H2 H3 H4.
    destruct (chain_clause [On a1; On a2; OrOn a3; On a4] [c1; c2; c3; c4]
                b s n Hn) as (b' & s' & Hrun & Hcl).
    { repeat constructor; assumption. }
    exists b', s'. split; [exact Hrun|]. rewrite Hcl, Hnone. reflexivity.
Qed.
End ClauseShape.

(** C2 on the spec's example, with the reference collaborators:
    [on(a,'=',b).orOn(c,'=',d)] yields [OR(cmp(a,=,b), cmp(c,=,d))] and a
    subsequent [.on(e,'=',f)] yields [AND(OR(...), cmp(e,=,f))]. *)
Lemma on_clause_tree_shape_witness :
  (exists b' s',
      chain (H := specCollaborators)
        [On [str "a"; str "="; str "b"]; OrOn [str "c"; str "="; str "d"]]
        sampleJoinBuilder sampleState = (Ok b', s')
      /\ clauseOf s' b'
         = Some (OrNode (cmp "a" "=" "b") (cmp "c" "=" "d")))
  /\ (exists b' s',
        chain (H := specCollaborators)
          [On [str "a"; str "="; str "b"]; OrOn [str "c"; str "="; str "d"];
           On [str "e"; str "="; str "f"]]
          sampleJoinBuilder sampleState = (Ok b', s')
        /\ clauseOf s' b'
           = Some (AndNode (OrNode (cmp "a" "=" "b") (cmp "c" "=" "d"))
                           (cmp "e" "=" "f"))).
Proof.
  assert (NC : NodeContract specCollaborators)
    by (split; intros; reflexivity).
  destruct (on_clause_tree_shape (C := specCollaborators)
              sampleJoinBuilder sampleState _ eq_refl)
    as (_ & _ & _ & Hex & _).
  exact (Hex [str "a"; str "="; str "b"] [str "c"; str "="; str "d"]
             [str "e"; str "="; str "f"] _ _ _
             eq_refl eq_refl eq_refl eq_refl).
Defined.

(** ** The deprecated methods *)

Section Deprecated.
Context `{C : Collaborators}.

Lemma link_yields (l : Link) (b : loc) (s : State) (n : JoinNode)
    (f : OperationNode) :
  nodeOf s b = Some n -> fragmentOf l = Ok f ->
  yields (applyLink l b) s
    (fun s' b' => nodeOf s' b' = Some (cloneOf (connectiveOf l) n f)).
Proof.
  intros Hn Hf.
  destruct (applyLink_ok l b s n f Hn Hf) as (b' & s' & Hrun & Hn' & _).
  exists b', s'. split; assumption.
Qed.

Lemma link_yields_clause {NC : NodeContract C} (l : Link) (b : loc)
    (s : State) (n : JoinNode) (f : OperationNode) :
  nodeOf s b = Some n -> fragmentOf l = Ok f ->
  yields (applyLink l b) s
    (fun s' b' =>
       clauseOf s' b' = Some (connect (connectiveOf l) (on_clause n) f)).
Proof.
  intros Hn Hf.
  destruct (applyLink_ok l b s n f Hn Hf) as (b' & s' & Hrun & Hn' & _).
  exists b', s'. split; [exact Hrun|].
  rewrite (clauseOf_nodeOf _ _ _ Hn'), cloneOf_contract. reflexivity.
Qed.

(** C3 (deprecated methods).  For a join builder [b] with node [n]:
    - [orOn], [orOnRef], [orOnExists], [orOnNotExists] return a builder
      over [cloneWithOrOn(n, f)], and [onExists], [onNotExists] a builder
      over [cloneWithOn(n, f)], where [f] is the fragment of the parser
      the method calls: [parseOn] and [parseReferentialComparison], the
      parsers of [on] and [onRef], for the first two, [parseExists] and
      [parseNotExists] for the others;
    - on the same arguments [orOn] and [on], and likewise [orOnRef] and
      [onRef], extend the node with the same fragment, and when the
      parser fails both fail with its error;
    - under the contract of the node constructors, on an accumulated
      clause [c] the four [orOn] methods yield [OR(c, f)] and the two
      [on] methods yield [AND(c, f)]. *)
Theorem deprecated_methods_keep_and_or (b : loc) (s : State) (n : JoinNode) :
  nodeOf s b = Some n ->
  (forall args,
      match parseOn args with
      | Ok f =>
          yields (JoinBuilder.orOn b args) s
            (fun s' b' => nodeOf s' b' = Some (cloneWithOrOn n f))
          /\ yields (JoinBuilder.on b args) s
               (fun s' b' => nodeOf s' b' = Some (cloneWithOn n f))
      | Throw e =>
          JoinBuilder.orOn b args s = (Throw e, s)
          /\ JoinBuilder.on b args s = (Throw e, s)
      end)
  /\ (forall lhs op rhs,
        match parseReferentialComparison lhs op rhs with
        | Ok f =>
            yields (JoinBuilder.orOnRef b lhs op rhs) s
              (fun s' b' => nodeOf s' b' = Some (cloneWithOrOn n f))
            /\ yields (JoinBuilder.onRef b lhs op rhs) s
                 (fun s' b' => nodeOf s' b' = Some (cloneWithOn n f))
        | Throw e =>
            JoinBuilder.orOnRef b lhs op rhs s = (Throw e, s)
            /\ JoinBuilder.onRef b lhs op rhs s = (Throw e, s)
        end)
  /\ (forall arg,
        match parseExists arg with
        | Ok f =>
            yields (JoinBuilder.orOnExists b arg) s
              (fun s' b' => nodeOf s' b' = Some (cloneWithOrOn n f))
            /\ yields (JoinBuilder.onExists b arg) s
                 (fun s' b' => nodeOf s' b' = Some (cloneWithOn n f))
        | Throw e =>
            JoinBuilder.orOnExists b arg s = (Throw e, s)
            /\ JoinBuilder.onExists b arg s = (Throw e, s)
        end)
  /\ (forall arg,
        match parseNotExists arg with
        | Ok f =>
            yields (JoinBuilder.orOnNotExists b arg) s
              (fun s' b' => nodeOf s' b' = Some (cloneWithOrOn n f))
            /\ yields (JoinBuilder.onNotExists b arg) s
                 (fun s' b' => nodeOf s' b' = Some (cloneWithOn n f))
        | Throw e =>
            JoinBuilder.orOnNotExists b arg s = (Throw e, s)
            /\ JoinBuilder.onNotExists b arg s = (Throw e, s)
        end)
  /\ (NodeContract C ->
      forall c, on_clause n = Some c ->
        (forall args f, parseOn args = Ok f ->
            yields (JoinBuilder.orOn b args) s
              (fun s' b' => clauseOf s' b' = Some (OrNode c f)))
        /\ (forall lhs op rhs f,
              parseReferentialComparison lhs op rhs = Ok f ->
              yields (JoinBuilder.orOnRef b lhs op rhs) s
                (fun s' b' => clauseOf s' b' = Some (OrNode c f)))
        /\ (forall arg f, parseExists arg = Ok f ->
              yields (JoinBuilder.orOnExists b arg) s
                (fun s' b' => clauseOf s' b' = Some (OrNode c f))
              /\ yields (JoinBuilder.onExists b arg) s
                   (fun s' b' => clauseOf s' b' = Some (AndNode c f)))
        /\ (forall arg f, parseNotExists arg = Ok f ->
              yields (JoinBuilder.orOnNotExists b arg) s
                (fun s' b' => clauseOf s' b' = Some (OrNode c f))
              /\ yields (JoinBuilder.onNotExists b arg) s
                   (fun s' b' => clauseOf s' b' = Some (AndNode c f)))).
Proof.
  intros Hn. split; [|split; [|split; [|split]]].
  - intros args. destruct (parseOn args) as [f|e] eqn:Hf.
    + split; [apply (link_yields (OrOn args) b s n f Hn Hf)
             | apply (link_yields (On args) b s n f Hn Hf)].
    + split; [apply (applyLink_throw (OrOn args) b s n e Hn Hf)
             | apply (applyLink_throw (On args) b s n e Hn Hf)].
  - intros lhs op rhs.
    destruct (parseReferentialComparison lhs op rhs) as [f|e] eqn:Hf.
    + split; [apply (link_yields (OrOnRef lhs op rhs) b s n f Hn Hf)
             | apply (link_yields (OnRef lhs op rhs) b s n f Hn Hf)].
    + split; [apply (applyLink_throw (OrOnRef lhs op rhs) b s n e Hn Hf)
             | apply (applyLink_throw (OnRef lhs op rhs) b s n e Hn Hf)].
  - intros arg. destruct (parseExists arg) as [f|e] eqn:Hf.
    + split; [apply (link_yields (OrOnExists arg) b s n f Hn Hf)
             | apply (link_yields (OnExists arg) b s n f Hn Hf)].
    + split; [apply (applyLink_throw (OrOnExists arg) b s n e Hn Hf)
             | apply (applyLink_throw (OnExists arg) b s n e Hn Hf)].
  - intros arg. destruct (parseNotExists arg) as [f|e] eqn:Hf.
    + split; [apply (link_yields (OrOnNotExists arg) b s n f Hn Hf)
             | apply (link_yields (OnNotExists arg) b s n f Hn Hf)].
    + split; [apply (applyLink_throw (OrOnNotExists arg) b s n e Hn Hf)
             | apply (applyLink_throw (OnNotExists arg) b s n e Hn Hf)].
  - intros NC c Hc. split; [|split; [|split]].
    + intros args f Hf.
      generalize (link_yields_clause (OrOn args) b s n f Hn Hf).
      rewrite Hc. tauto.
    + intros lhs op rhs f Hf.
      generalize (link_yields_clause (OrOnRef lhs op rhs) b s n f Hn Hf).
      rewrite Hc. tauto.
    + intros arg f Hf. split.
      * generalize (link_yields_clause (OrOnExists arg) b s n f Hn Hf).
        rewrite Hc. tauto.
      * generalize (link_yields_clause (OnExists arg) b s n f Hn Hf).
        rewrite Hc. tauto.
    + intros arg f Hf. split.
      * generalize (link_yields_clause (OrOnNotExists arg) b s n f Hn Hf).
        rewrite Hc. tauto.
      * generalize (link_yields_clause (OnNotExists arg) b s n f Hn Hf).
        rewrite Hc. tauto.
Qed.
End Deprecated.

(** C3 on the sample join builder whose clause is [cmp(a,=,b)], with the
    reference collaborators: [orOnRef] disjuncts, [onNotExists] conjuncts. *)
Lemma deprecated_methods_keep_and_or_witness :
  yields (JoinBuilder.orOnRef (H := specCollaborators)
            sampleJoinBuilderWithClause (str "c") (str "=") (str "d"))
    sampleStateWithClause
    (fun s' b' =>
       clauseOf s' b'
       = Some (OrNode (cmp "a" "=" "b")
                 (BinaryOperationNode (ReferenceNode "c") "="
                    (ReferenceNode "d"))))
  /\ yields (JoinBuilder.onNotExists (H := specCollaborators)
              sampleJoinBuilderWithClause (JsExpression (RawNode "select 1")))
       sampleStateWithClause
       (fun s' b' =>
          clauseOf s' b'
          = Some (AndNode (cmp "a" "=" "b")
                    (UnaryOperationNode "not exists" (RawNode "select 1")))).
Proof.
  destruct (deprecated_methods_keep_and_or (C := specCollaborators)
              sampleJoinBuilderWithClause sampleStateWithClause _ eq_refl)
    as (_ & _ & _ & _ & Hshape).
  destruct (Hshape
              (Build_NodeContract specCollaborators
                 (fun _ _ => eq_refl) (fun _ _ => eq_refl))
              _ eq_refl) as (_ & Href & _ & Hnot).
  split.
  - exact (Href (str "c") (str "=") (str "d") _ eq_refl).
  - exact (proj2 (Hnot (JsExpression (RawNode "select 1")) _ eq_refl)).
Defined.

(** ** Sub-queries *)

Section SubQueries.
Context `{C : Collaborators}.

Lemma subQuery_ok_inv (b : loc) (table : JsValue) (s : State) (q : loc) :
  fst (SubQueryBuilder.subQuery b table s) = Ok q ->
  exists p items,
    subQueryBuilderAt s b = Some p
    /\ parseTableExpressionOrList (createParseContext (adapter p)) table
       = Ok items
    /\ q = length (heap s)
    /\ snd (SubQueryBuilder.subQuery b table s)
       = grown (idDrawn s)
           [OQueryBuilder
              {| queryId := nextQueryId s;
                 qb_executor := executor p;
                 qb_adapter := adapter p;
                 queryNode := SelectQueryNode_create items |}].
Proof.
  unfold subQueryBuilderAt. rewrite subQuery_run.
  destruct (heap s !! b) as [[]|]; try discriminate.
  destruct (parseTableExpressionOrList _ _) as [items|] eqn:Hp;
    try discriminate.
  cbn. intros [= <-]. exists props, items. auto.
Qed.

Lemma queryBuilderAt_stable (s s' : State) (q : loc)
    (p : QueryBuilderProps) :
  heap s `prefix_of` heap s' ->
  queryBuilderAt s q = Some p -> queryBuilderAt s' q = Some p.
Proof.
  intros Hpre. unfold queryBuilderAt.
  destruct (heap s !! q) as [o|] eqn:Hq; try discriminate.
  rewrite (prefix_lookup_Some _ _ _ _ Hq Hpre). tauto.
Qed.

(** C4 (sub-query construction).  For a sub-query builder [b] with props
    [p]:
    - if the table expression parses, [subQuery] returns a new object, a
      query builder whose props are the identifier [createQueryId()]
      returns at that call, the executor and the adapter references of
      [p], and the select-query node created from the parsed items;
    - two sub-queries built in the same run, by the same or by different
      builders, with any calls in between, carry different identifiers. *)
Theorem subQuery_builds_fresh_query (b : loc) (p : SubQueryBuilderProps)
    (s : State) :
  subQueryBuilderAt s b = Some p ->
  (forall table items,
      parseTableExpressionOrList (createParseContext (adapter p)) table
      = Ok items ->
      exists q s' qid,
        SubQueryBuilder.subQuery b table s = (Ok q, s')
        /\ fst (createQueryId s) = Ok qid
        /\ heap s !! q = None
        /\ queryBuilderAt s' q
           = Some {| queryId := qid;
                     qb_executor := executor p;
                     qb_adapter := adapter p;
                     queryNode := SelectQueryNode_create items |})
  /\ (forall table cs b2 table2 q1 q2 p1 p2,
        let r1 := SubQueryBuilder.subQuery b table s in
        let r2 := SubQueryBuilder.subQuery b2 table2 (runAll cs (snd r1)) in
        fst r1 = Ok q1 -> fst r2 = Ok q2 ->
        queryBuilderAt (snd r2) q1 = Some p1 ->
        queryBuilderAt (snd r2) q2 = Some p2 ->
        q1 <> q2 /\ queryId p1 <> queryId p2).
Proof.
  intros Hb. split.
  - intros table items Hitems.
    unfold subQueryBuilderAt in Hb.
    exists (length (heap s)), (grown (idDrawn s)
      [OQueryBuilder {| queryId := nextQueryId s;
                        qb_executor := executor p;
                        qb_adapter := adapter p;
                        queryNode := SelectQueryNode_create items |}]),
      (nextQueryId s).
    rewrite subQuery_run.
    destruct (heap s !! b) as [[]|]; try discriminate.
    injection Hb as ->. rewrite Hitems.
    split; [reflexivity|]. split; [reflexivity|]. split.
    + apply lookup_ge_None. lia.
    + unfold queryBuilderAt, grown. cbn -[lookup].
      rewrite lookup_fresh. reflexivity.
  - intros table cs b2 table2 q1 q2 p1 p2 r1 r2 H1 H2 Hp1 Hp2.
    destruct (subQuery_ok_inv _ _ _ _ H1) as (pa & ia & _ & _ & -> & Hs1).
    destruct (subQuery_ok_inv _ _ _ _ H2) as (pb & ib & _ & _ & -> & Hs2).
    pose proof (runAll_heap_prefix cs (snd r1)) as Hpre.
    pose proof (runAll_counter_le cs (snd r1)) as Hle.
    assert (Hq1 : queryBuilderAt (snd r1) (length (heap s))
                  = Some {| queryId := nextQueryId s;
                            qb_executor := executor pa;
                            qb_adapter := adapter pa;
                            queryNode := SelectQueryNode_create ia |}).
    { unfold r1. rewrite Hs1. unfold queryBuilderAt, grown.
      cbn -[lookup]. rewrite lookup_fresh. reflexivity. }
    assert (Hpre2 : heap (runAll cs (snd r1)) `prefix_of` heap (snd r2))
      by apply (run_heap_prefix (CallSubQuery b2 table2)).
    apply (queryBuilderAt_stable _ _ _ _ Hpre) in Hq1.
    apply (queryBuilderAt_stable _ _ _ _ Hpre2) in Hq1.
    rewrite Hq1 in Hp1. injection Hp1 as <-.
    unfold r2 in Hp2. rewrite Hs2 in Hp2.
    unfold queryBuilderAt, grown, idDrawn in Hp2. cbn [heap] in Hp2.
    rewrite lookup_fresh in Hp2. injection Hp2 as <-.
    assert (Hc1 : nextQueryId (snd r1) = S (nextQueryId s))
      by (unfold r1; rewrite Hs1; reflexivity).
    assert (Hl1 : length (heap (snd r1)) = length (heap s) + 1)
      by (unfold r1; rewrite Hs1; cbn; rewrite length_app; reflexivity).
    apply prefix_length in Hpre. cbn [queryId].
    clear Hs1 Hs2 Hq1 H1 H2 Hpre2. clearbody r1. clear r2.
    split; lia.
Qed.
End SubQueries.

(** C4 at the sample store: two sub-queries of the sample builder, with a
    [withSchema] and an [onTrue] call in between, sit at the locations 5 and
    10 and carry the identifiers 0 and 1. *)
Lemma subQuery_builds_fresh_query_witness :
  (exists q s' qid,
      SubQueryBuilder.subQuery (H := specCollaborators)
        sampleSubQueryBuilder (str "person") sampleState = (Ok q, s')
      /\ fst (createQueryId sampleState) = Ok qid
      /\ heap sampleState !! q = None
      /\ queryBuilderAt s' q
         = Some {| queryId := qid; qb_executor := 1; qb_adapter := 0;
                   queryNode := {| from := [TableNode "person"] |} |})
  /\ (5 <> 10 /\ 0 <> 1).
Proof.
  destruct (subQuery_builds_fresh_query (C := specCollaborators)
              sampleSubQueryBuilder _ sampleState eq_refl) as [Hnew Huniq].
  split.
  - exact (Hnew (str "person") _ eq_refl).
  - exact (Huniq (str "person")
             [CallWithSchema sampleSubQueryBuilder "s";
              CallLink sampleJoinBuilder OnTrue]
             sampleSubQueryBuilder (str "pet") 5 10 _ _
             eq_refl eq_refl eq_refl eq_refl).
Defined.

(** ** Parser failures *)

Section Failures.
Context `{C : Collaborators}.

Lemma subQuery_throw (b : loc) (p : SubQueryBuilderProps) (table : JsValue)
    (e : Error) (s : State) :
  subQueryBuilderAt s b = Some p ->
  parseTableExpressionOrList (createParseContext (adapter p)) table
  = Throw e ->
  SubQueryBuilder.subQuery b table s = (Throw e, idDrawn s).
Proof.
  unfold subQueryBuilderAt. intros Hb Hp. rewrite subQuery_run.
  destruct (heap s !! b) as [[]|]; try discriminate.
  injection Hb as ->. rewrite Hp. reflexivity.
Qed.

(** C5 (error atomicity).  [fragmentOf l] is the parser call the method
    [l] makes on its arguments.
    - When it fails with [e], the method throws [e] and the store after
      the call is the store before it: neither a node nor a builder was
      allocated, whatever [cloneWithOn] and [cloneWithOrOn] are.  The
      receiver is as usable as before: every later call on it runs as it
      would have run without the failed call, and [toOperationNode()]
      still returns its node.
    - When the table-expression parser fails with [e] in [subQuery], the
      call throws [e], no object is added to the store, the receiver keeps
      its props, and a later [subQuery] with a table that parses
      succeeds. *)
Theorem parser_failure_is_atomic :
  (forall (l : Link) (b : loc) (s : State) (n : JoinNode) (e : Error),
      nodeOf s b = Some n ->
      fragmentOf l = Throw e ->
      applyLink l b s = (Throw e, s)
      /\ (forall l', applyLink l' b (snd (applyLink l b s))
                     = applyLink l' b s)
      /\ (exists node,
            JoinBuilder.toOperationNode b (snd (applyLink l b s))
            = (Ok node, s)
            /\ heap s !! node = Some (OJoinNode n)))
  /\ (forall (b : loc) (p : SubQueryBuilderProps) (table : JsValue)
             (s : State) (e : Error),
        subQueryBuilderAt s b = Some p ->
        parseTableExpressionOrList (createParseContext (adapter p)) table
        = Throw e ->
        fst (SubQueryBuilder.subQuery b table s) = Throw e
        /\ heap (snd (SubQueryBuilder.subQuery b table s)) = heap s
        /\ subQueryBuilderAt (snd (SubQueryBuilder.subQuery b table s)) b
           = Some p
        /\ (forall table' items,
              parseTableExpressionOrList
                (createParseContext (adapter p)) table' = Ok items ->
              yields (SubQueryBuilder.subQuery b table')
                (snd (SubQueryBuilder.subQuery b table s))
                (fun s' q =>
                   exists qid,
                     queryBuilderAt s' q
                     = Some {| queryId := qid;
                               qb_executor := executor p;
                               qb_adapter := adapter p;
                               queryNode := SelectQueryNode_create items |}))).
Proof.
  split.
  - intros l b s n e Hn Hf.
    rewrite (applyLink_throw l b s n e Hn Hf). cbn [snd].
    split; [reflexivity|]. split; [reflexivity|].
    rewrite toOperationNode_run. unfold nodeOf in Hn.
    destruct (heap s !! b) as [[]|]; try discriminate.
    exists (joinNode props). split; [reflexivity|].
    destruct (heap s !! joinNode props) as [[]|]; try discriminate.
    injection Hn as ->. reflexivity.
  - intros b p table s e Hb Hp.
    rewrite (subQuery_throw b p table e s Hb Hp). cbn [fst snd].
    split; [reflexivity|]. split; [reflexivity|]. split; [exact Hb|].
    intros table' items Hitems.
    unfold yields. rewrite subQuery_run.
    unfold subQueryBuilderAt in Hb. cbn [heap idDrawn].
    destruct (heap s !! b) as [[]|]; try discriminate.
    injection Hb as ->. rewrite Hitems.
    eexists _, _. split; [reflexivity|].
    eexists. unfold queryBuilderAt, grown, idDrawn. cbn -[lookup].
    rewrite lookup_fresh. reflexivity.
Qed.
End Failures.

(** C5 on the spec's example, with the reference collaborators:
    [on('col', 'not_an_operator', 'x')] throws the operator-validation
    error and leaves the sample store as it was. *)
Lemma parser_failure_is_atomic_witness :
  JoinBuilder.on (H := specCollaborators) sampleJoinBuilder
    [str "col"; str "not_an_operator"; str "x"] sampleState
  = (Throw (InvalidOperator "not_an_operator"), sampleState)
  /\ fst (SubQueryBuilder.subQuery (H := specCollaborators)
            sampleSubQueryBuilder (JsLit LNull) sampleState)
     = Throw InvalidTableExpression.
Proof.
  destruct (parser_failure_is_atomic (C := specCollaborators))
    as [Hjoin Hsub].
  split.
  - exact (proj1 (Hjoin (On [str "col"; str "not_an_operator"; str "x"])
                    sampleJoinBuilder sampleState _ _ eq_refl eq_refl)).
  - exact (proj1 (Hsub sampleSubQueryBuilder _ (JsLit LNull) sampleState _
                    eq_refl eq_refl)).
Defined.

(** ** [onTrue] *)

Section OnTrue.
Context `{C : Collaborators}.

(** C6 ([onTrue]).  For a join builder [b] with node [n], [onTrue()]
    returns a builder over [cloneWithOn(n, RawNode.createWithSql('true'))].
    Under the contract of [cloneWithOn]: on a clause [c] the result is
    [AND(c, true)]; on an empty clause [onTrue()] yields [true] and
    [onTrue().onTrue()] yields [AND(true, true)], which is not the node
    [true]. *)
Theorem onTrue_conjuncts_raw_true (b : loc) (s : State) (n : JoinNode) :
  nodeOf s b = Some n ->
  yields (JoinBuilder.onTrue b) s
    (fun s' b' => nodeOf s' b' = Some (cloneWithOn n (RawNode "true")))
  /\ (NodeContract C ->
      (forall c, on_clause n = Some c ->
          yields (JoinBuilder.onTrue b) s
            (fun s' b' => clauseOf s' b' = Some (AndNode c (RawNode "true"))))
      /\ (on_clause n = None ->
          yields (JoinBuilder.onTrue b) s
            (fun s' b' => clauseOf s' b' = Some (RawNode "true"))
          /\ yields (let! b1 := JoinBuilder.onTrue b in
                     JoinBuilder.onTrue b1) s
               (fun s' b' =>
                  clauseOf s' b'
                  = Some (AndNode (RawNode "true") (RawNode "true"))
                  /\ clauseOf s' b' <> Some (RawNode "true")))).
Proof.
  intros Hn. split.
  - apply (link_yields OnTrue b s n (RawNode "true") Hn eq_refl).
  - intros NC. split.
    + intros c Hc.
      generalize (link_yields_clause OnTrue b s n _ Hn eq_refl).
      rewrite Hc. tauto.
    + intros Hnone. split.
      * generalize (link_yields_clause OnTrue b s n _ Hn eq_refl).
        rewrite Hnone. tauto.
      * destruct (applyLink_ok OnTrue b s n _ Hn eq_refl)
          as (b1 & s1 & Hrun1 & Hn1 & _).
        destruct (link_yields_clause OnTrue b1 s1 _ _ Hn1 eq_refl)
          as (b2 & s2 & Hrun2 & Hcl2).
        exists b2, s2. cbn [applyLink] in Hrun1, Hrun2.
        unfold bind. rewrite Hrun1. split; [exact Hrun2|].
        rewrite Hcl2. cbn [connectiveOf cloneOf].
        rewrite cloneWithOn_contract, Hnone. cbn.
        split; [reflexivity | discriminate].
Qed.
End OnTrue.

(** C6 at the sample join builder, whose clause is empty, with the reference
    collaborators. *)
Lemma onTrue_conjuncts_raw_true_witness :
  yields (let! b1 := JoinBuilder.onTrue (H := specCollaborators)
                       sampleJoinBuilder in
          JoinBuilder.onTrue (H := specCollaborators) b1) sampleState
    (fun s' b' =>
       clauseOf s' b' = Some (AndNode (RawNode "true") (RawNode "true"))
       /\ clauseOf s' b' <> Some (RawNode "true")).
Proof.
  exact (proj2 (proj2 (proj2 (onTrue_conjuncts_raw_true
                                (C := specCollaborators)
                                sampleJoinBuilder sampleState _ eq_refl)
                         (Build_NodeContract specCollaborators
                            (fun _ _ => eq_refl) (fun _ _ => eq_refl)))
                  eq_refl)).
Defined.

(** ** [withSchema] and the parse context *)

Section WithSchema.
Context `{C : Collaborators}.

Lemma withSchema_inv (b : loc) (schema : string) (s : State)
    (b' : loc) (s' : State) :
  SubQueryBuilder.withSchema b schema s = (Ok b', s') ->
  exists p ps,
    subQueryBuilderAt s b = Some p
    /\ pluginsAt s (executor p) = Some ps
    /\ b' = S (length (heap s))
    /\ s' = grown s [OExecutor (WithSchemaPlugin schema :: ps);
                     OSubQueryBuilder {| executor := length (heap s);
                                         adapter := adapter p |}].
Proof.
  unfold subQueryBuilderAt, pluginsAt. rewrite withSchema_run.
  destruct (heap s !! b) as [[]|]; try discriminate.
  destruct (heap s !! executor props) as [[]|] eqn:He; try discriminate.
  intros [= <- <-]. exists props, plugins.
  rewrite He. repeat split; reflexivity.
Qed.

Lemma withSchema_ok (b : loc) (schema : string) (s : State)
    (p : SubQueryBuilderProps) (ps : list Plugin) :
  subQueryBuilderAt s b = Some p ->
  pluginsAt s (executor p) = Some ps ->
  SubQueryBuilder.withSchema b schema s
  = (Ok (S (length (heap s))),
     grown s [OExecutor (WithSchemaPlugin schema :: ps);
              OSubQueryBuilder {| executor := length (heap s);
                                  adapter := adapter p |}]).
Proof.
  unfold subQueryBuilderAt, pluginsAt. rewrite withSchema_run.
  destruct (heap s !! b) as [[]|]; try discriminate. intros [= ->].
  destruct (heap s !! executor p) as [[]|]; try discriminate.
  intros [= ->]. reflexivity.
Qed.

Lemma parseContext_run (b : loc) (s : State) (p : SubQueryBuilderProps) :
  subQueryBuilderAt s b = Some p ->
  SubQueryBuilder.parseContext b s
  = (Ok (createParseContext (adapter p)), s).
Proof.
  unfold subQueryBuilderAt, SubQueryBuilder.parseContext,
    SubQueryBuilder.props, bind, ret.
  destruct (heap s !! b) as [[]|]; try discriminate.
  intros [= ->]. reflexivity.
Qed.

Lemma derived_builder_at (s : State) (o : Obj) (p : SubQueryBuilderProps) :
  subQueryBuilderAt (grown s [o; OSubQueryBuilder p]) (S (length (heap s)))
  = Some p.
Proof.
  unfold subQueryBuilderAt, grown. cbn -[lookup].
  rewrite lookup_fresh_next. reflexivity.
Qed.

(** C7 as amended (parse context per call).  For a sub-query builder [b]
    with props [p]:
    - the getter [#parseContext] evaluates [createParseContext] on the
      adapter of [p] and writes nothing to the store, at the first call
      and after any sequence of calls: there is nothing cached;
    - the outcome of [subQuery(table)] is that of the table-expression
      parser run with this context;
    - a builder derived with [withSchema] has the same adapter: its parse
      context is the one of [b]. *)
Theorem parse_context_is_computed_per_call (b : loc)
    (p : SubQueryBuilderProps) (s : State) :
  subQueryBuilderAt s b = Some p ->
  (forall cs,
      SubQueryBuilder.parseContext b (runAll cs s)
      = (Ok (createParseContext (adapter p)), runAll cs s))
  /\ (forall table,
        outcome (fst (SubQueryBuilder.subQuery b table s))
                (snd (SubQueryBuilder.subQuery b table s))
        = match parseTableExpressionOrList
                  (createParseContext (adapter p)) table with
          | Ok items =>
              Ok (Some (ObsQueryBuilder
                          {| queryId := nextQueryId s;
                             qb_executor := executor p;
                             qb_adapter := adapter p;
                             queryNode := SelectQueryNode_create items |}))
          | Throw e => Throw e
          end)
  /\ (forall schema b' s',
        SubQueryBuilder.withSchema b schema s = (Ok b', s') ->
        SubQueryBuilder.parseContext b' s'
        = (Ok (createParseContext (adapter p)), s')).
Proof.
  intros Hb. split; [|split].
  - intros cs. apply parseContext_run.
    exact (subQueryBuilderAt_stable _ _ _ _ (runAll_heap_prefix cs s) Hb).
  - intros table. apply subQuery_outcome, Hb.
  - intros schema b' s' Hrun.
    destruct (withSchema_inv _ _ _ _ _ Hrun) as (p0 & ps & Hb0 & _ & -> & ->).
    rewrite Hb in Hb0. injection Hb0 as <-.
    exact (parseContext_run _ _
             {| executor := length (heap s); adapter := adapter p |}
             (derived_builder_at _ _ _)).
Qed.

(** C10 ([withSchema] keeps the adapter).  For a sub-query builder [b]
    with props [p] whose executor has the plugin chain [ps],
    [withSchema(schema)] returns a new builder whose adapter is the
    adapter reference of [p] and whose executor is a new object with the
    chain [WithSchemaPlugin(schema) :: ps]; [b], its executor and the
    adapter object are untouched, and the parse context of the returned
    builder is the parse context of [b]. *)
Theorem withSchema_changes_only_the_executor (b : loc)
    (p : SubQueryBuilderProps) (ps : list Plugin) (schema : string)
    (s : State) :
  subQueryBuilderAt s b = Some p ->
  pluginsAt s (executor p) = Some ps ->
  exists b' s' e',
    SubQueryBuilder.withSchema b schema s = (Ok b', s')
    /\ heap s !! b' = None
    /\ subQueryBuilderAt s' b'
       = Some {| executor := e'; adapter := adapter p |}
    /\ heap s !! e' = None
    /\ pluginsAt s' e' = Some (WithSchemaPlugin schema :: ps)
    /\ subQueryBuilderAt s' b = Some p
    /\ pluginsAt s' (executor p) = Some ps
    /\ (forall o, heap s !! adapter p = Some o ->
                  heap s' !! adapter p = Some o)
    /\ SubQueryBuilder.parseContext b' s'
       = (Ok (createParseContext (adapter p)), s')
    /\ fst (SubQueryBuilder.parseContext b' s')
       = fst (SubQueryBuilder.parseContext b s).
Proof.
  intros Hb Hps.
  eexists _, _, (length (heap s)).
  split; [apply (withSchema_ok b schema s p ps Hb Hps)|].
  set (s' := grown s _).
  assert (Hpre : heap s `prefix_of` heap s')
    by (unfold s', grown; cbn; apply prefix_app_r; reflexivity).
  assert (Hb' : subQueryBuilderAt s' (S (length (heap s)))
                = Some {| executor := length (heap s);
                          adapter := adapter p |})
    by apply derived_builder_at.
  repeat split.
  - apply lookup_ge_None. lia.
  - exact Hb'.
  - apply lookup_ge_None. lia.
  - unfold pluginsAt, s', grown. cbn -[lookup].
    rewrite lookup_fresh. reflexivity.
  - exact (subQueryBuilderAt_stable _ _ _ _ Hpre Hb).
  - exact (pluginsAt_stable _ _ _ _ Hpre Hps).
  - intros o Ho. exact (prefix_lookup_Some _ _ _ _ Ho Hpre).
  - apply (parseContext_run _ _ _ Hb').
  - rewrite (parseContext_run _ _ _ Hb'), (parseContext_run _ _ _ Hb).
    reflexivity.
Qed.
End WithSchema.

(** C7 as stated has a rationale the code excludes: there is no store, no
    sub-query builder and no schema name for which [withSchema] returns a
    builder with another adapter. *)
Lemma adapter_never_changes_via_withSchema :
  ~ (exists (s : State) (b : loc) (schema : string)
            (b' : loc) (s' : State) (p p' : SubQueryBuilderProps),
        subQueryBuilderAt s b = Some p
        /\ SubQueryBuilder.withSchema b schema s = (Ok b', s')
        /\ subQueryBuilderAt s' b' = Some p'
        /\ adapter p' <> adapter p).
Proof.
  intros (s & b & schema & b' & s' & p & p' & Hb & Hrun & Hb' & Hne).
  destruct (withSchema_inv _ _ _ _ _ Hrun) as (p0 & ps & Hb0 & _ & -> & ->).
  rewrite Hb in Hb0. injection Hb0 as <-.
  rewrite derived_builder_at in Hb'. injection Hb' as <-.
  apply Hne. reflexivity.
Qed.

(** C7 at the sample store, with the reference collaborators: the parse
    context of the sample sub-query builder and of the builder derived
    from it with [withSchema("s")] is built from the adapter at 0. *)
Lemma parse_context_is_computed_per_call_witness :
  SubQueryBuilder.parseContext (H := specCollaborators)
    sampleSubQueryBuilder sampleState
  = (Ok {| ctx_adapter := 0 |}, sampleState)
  /\ fst (SubQueryBuilder.parseContext (H := specCollaborators) 6
            (snd (SubQueryBuilder.withSchema
                    sampleSubQueryBuilder "s" sampleState)))
     = Ok {| ctx_adapter := 0 |}.
Proof.
  destruct (parse_context_is_computed_per_call (C := specCollaborators)
              sampleSubQueryBuilder _ sampleState eq_refl)
    as (Hctx & _ & Hderived).
  split.
  - exact (Hctx []).
  - exact (f_equal fst (Hderived "s" 6 _ eq_refl)).
Defined.

(** C10 at the sample store, with the reference collaborators. *)
Lemma withSchema_changes_only_the_executor_witness :
  exists b' s' e',
    SubQueryBuilder.withSchema
      sampleSubQueryBuilder "s" sampleState = (Ok b', s')
    /\ subQueryBuilderAt s' b' = Some {| executor := e'; adapter := 0 |}
    /\ pluginsAt s' e' = Some [WithSchemaPlugin "s"]
    /\ pluginsAt s' 1 = Some [].
Proof.
  destruct (withSchema_changes_only_the_executor (C := specCollaborators)
              sampleSubQueryBuilder _ [] "s" sampleState eq_refl eq_refl)
    as (b' & s' & e' & Hrun & _ & Hb' & _ & He' & _ & He & _).
  exists b', s', e'. repeat split; assumption.
Defined.

(** ** Two-run determinism *)

Section Determinism.
Context `{C : Collaborators}.

Lemma observe_new_join (s : State) (n : JoinNode) :
  observe (grown s [OJoinNode n;
                    OJoinBuilder {| joinNode := length (heap s) |}])
          (S (length (heap s)))
  = Some (ObsJoinBuilder n).
Proof.
  unfold observe, nodeOf, grown. cbn -[lookup].
  rewrite lookup_fresh_next. cbn -[lookup].
  rewrite lookup_fresh. reflexivity.
Qed.

Lemma observe_new_sub (s : State) (ps : list Plugin) (a : loc) :
  observe (grown s [OExecutor ps;
                    OSubQueryBuilder {| executor := length (heap s);
                                        adapter := a |}])
          (S (length (heap s)))
  = Some (ObsSubQueryBuilder ps a).
Proof.
  unfold observe, pluginsAt, grown. cbn -[lookup].
  rewrite lookup_fresh_next. cbn -[lookup].
  rewrite lookup_fresh. reflexivity.
Qed.

Lemma link_outcome (l : Link) (b : loc) (s : State) :
  firstRun (CallLink b l) s =
  match heap s !! b with
  | Some (OJoinBuilder p) =>
      match fragmentOf l with
      | Throw e => Throw e
      | Ok f =>
          match heap s !! joinNode p with
          | Some (OJoinNode n) =>
              Ok (Some (ObsJoinBuilder (cloneOf (connectiveOf l) n f)))
          | _ => Throw TypeError
          end
      end
  | _ => Throw TypeError
  end.
Proof.
  unfold firstRun, run. rewrite applyLink_run.
  destruct (heap s !! b) as [[]|]; try reflexivity.
  destruct (fragmentOf l); try reflexivity.
  destruct (heap s !! joinNode props) as [[]|]; try reflexivity.
  cbn [fst snd outcome]. rewrite observe_new_join. reflexivity.
Qed.

Lemma withSchema_outcome (b : loc) (schema : string) (s : State) :
  firstRun (CallWithSchema b schema) s =
  match heap s !! b with
  | Some (OSubQueryBuilder p) =>
      match heap s !! executor p with
      | Some (OExecutor ps) =>
          Ok (Some (ObsSubQueryBuilder (WithSchemaPlugin schema :: ps)
                      (adapter p)))
      | _ => Throw TypeError
      end
  | _ => Throw TypeError
  end.
Proof.
  unfold firstRun, run. rewrite withSchema_run.
  destruct (heap s !! b) as [[]|]; try reflexivity.
  destruct (heap s !! executor props) as [[]|]; try reflexivity.
  cbn [fst snd outcome]. rewrite observe_new_sub. reflexivity.
Qed.

Lemma subQuery_first_outcome (b : loc) (table : JsValue) (s : State) :
  firstRun (CallSubQuery b table) s =
  match heap s !! b with
  | Some (OSubQueryBuilder p) =>
      match parseTableExpressionOrList
              (createParseContext (adapter p)) table with
      | Ok items =>
          Ok (Some (ObsQueryBuilder
                      {| queryId := nextQueryId s;
                         qb_executor := executor p;
                         qb_adapter := adapter p;
                         queryNode := SelectQueryNode_create items |}))
      | Throw e => Throw e
      end
  | _ => Throw TypeError
  end.
Proof.
  unfold firstRun, run. rewrite subQuery_run.
  destruct (heap s !! b) as [[]|]; try reflexivity.
  destruct (parseTableExpressionOrList _ _); try reflexivity.
  cbn [fst snd outcome]. unfold observe, grown. cbn -[lookup].
  rewrite lookup_fresh. reflexivity.
Qed.

Lemma secondRun_firstRun (c : Call) (s : State) :
  secondRun c s = firstRun c (snd (run c s)).
Proof. reflexivity. Qed.

(** C8 as amended (two-run determinism).  Two runs of the same call, one
    right after the other:
    - for every method but [subQuery] (the nine [on]-family methods,
      [toOperationNode], [withSchema]) the caller sees the same outcome:
      the same error, or objects with the same contents;
    - for [subQuery] the outcomes agree on everything but the query
      identifier, and when both runs return, the identifier of the second
      query builder is the one after the identifier of the first. *)
Theorem two_runs_agree_up_to_query_id :
  (forall c s, isSubQuery c = false -> secondRun c s = firstRun c s)
  /\ (forall b table s,
        eraseOutcome (secondRun (CallSubQuery b table) s)
        = eraseOutcome (firstRun (CallSubQuery b table) s))
  /\ (forall b table s p1 p2,
        firstRun (CallSubQuery b table) s
        = Ok (Some (ObsQueryBuilder p1)) ->
        secondRun (CallSubQuery b table) s
        = Ok (Some (ObsQueryBuilder p2)) ->
        queryId p2 = S (queryId p1)).
Proof.
  split; [|split].
  - intros c s Hc. rewrite secondRun_firstRun.
    pose proof (run_heap_prefix c s) as Hpre.
    destruct c as [b l|b|b table|b schema]; try discriminate; clear Hc.
    + rewrite !link_outcome.
      destruct (heap s !! b) as [o|] eqn:Hb.
      * rewrite (prefix_lookup_Some _ _ _ _ Hb Hpre).
        destruct o as [| p | | | |]; try reflexivity.
        destruct (fragmentOf l) eqn:Hf; try reflexivity.
        destruct (heap s !! joinNode p) as [o|] eqn:Hn.
        -- rewrite (prefix_lookup_Some _ _ _ _ Hn Hpre). reflexivity.
        -- unfold run. rewrite applyLink_run, Hb, Hf, Hn. cbn [snd].
           rewrite Hn. reflexivity.
      * unfold run. rewrite applyLink_run, Hb. cbn [snd].
        rewrite Hb. reflexivity.
    + unfold firstRun, run. rewrite !toOperationNode_run.
      destruct (heap s !! b) as [[]|] eqn:Hb; cbn [fst snd];
        rewrite ?toOperationNode_run, ?Hb; reflexivity.
    + rewrite !withSchema_outcome.
      destruct (heap s !! b) as [o|] eqn:Hb.
      * rewrite (prefix_lookup_Some _ _ _ _ Hb Hpre).
        destruct o as [| | p | | |]; try reflexivity.
        destruct (heap s !! executor p) as [o|] eqn:He.
        -- rewrite (prefix_lookup_Some _ _ _ _ He Hpre). reflexivity.
        -- unfold run. rewrite withSchema_run, Hb, He. cbn [snd].
           rewrite He. reflexivity.
      * unfold run. rewrite withSchema_run, Hb. cbn [snd].
        rewrite Hb. reflexivity.
  - intros b table s. rewrite secondRun_firstRun.
    rewrite !subQuery_first_outcome.
    unfold run. rewrite subQuery_run.
    destruct (heap s !! b) as [[]|] eqn:Hb; cbn [snd idDrawn heap];
      rewrite ?Hb; try reflexivity.
    destruct (parseTableExpressionOrList _ _) eqn:Hp; cbn [snd];
      [|cbn [idDrawn heap]; rewrite Hb, Hp; reflexivity].
    unfold grown. cbn [heap idDrawn].
    rewrite (lookup_app_l_Some _ _ _ _ Hb), Hp. reflexivity.
  - intros b table s p1 p2. rewrite secondRun_firstRun.
    rewrite !subQuery_first_outcome.
    unfold run. rewrite subQuery_run.
    destruct (heap s !! b) as [[]|] eqn:Hb; try discriminate.
    destruct (parseTableExpressionOrList _ _) eqn:Hp; try discriminate.
    intros [= <-]. cbn [snd]. unfold grown. cbn [heap idDrawn].
    rewrite (lookup_app_l_Some _ _ _ _ Hb), Hp.
    intros [= <-]. reflexivity.
Qed.
End Determinism.

(** C8 as stated fails for [subQuery]: two runs of
    [subQuery('person')] on the sample sub-query builder return query
    builders that differ in their query identifier (0, then 1). *)
Lemma subQuery_two_runs_differ :
  firstRun (H := specCollaborators)
    (CallSubQuery sampleSubQueryBuilder (str "person")) sampleState
  = Ok (Some (ObsQueryBuilder
                {| queryId := 0; qb_executor := 1; qb_adapter := 0;
                   queryNode := {| from := [TableNode "person"] |} |}))
  /\ secondRun (H := specCollaborators)
       (CallSubQuery sampleSubQueryBuilder (str "person")) sampleState
     = Ok (Some (ObsQueryBuilder
                   {| queryId := 1; qb_executor := 1; qb_adapter := 0;
                      queryNode := {| from := [TableNode "person"] |} |}))
  /\ secondRun (H := specCollaborators)
       (CallSubQuery sampleSubQueryBuilder (str "person")) sampleState
     <> firstRun (H := specCollaborators)
          (CallSubQuery sampleSubQueryBuilder (str "person")) sampleState.
Proof.
  split; [reflexivity|]. split; [reflexivity|]. discriminate.
Qed.

(** C8 as amended at the sample store, with the reference collaborators:
    the identifiers of two runs of [subQuery('person')] are 0 and 1. *)
Lemma two_runs_agree_up_to_query_id_witness :
  secondRun (H := specCollaborators)
    (CallLink sampleJoinBuilder (On [str "a"; str "="; str "b"])) sampleState
  = firstRun (H := specCollaborators)
      (CallLink sampleJoinBuilder (On [str "a"; str "="; str "b"])) sampleState
  /\ 1 = S 0.
Proof.
  destruct (two_runs_agree_up_to_query_id (C := specCollaborators))
    as (Hsame & _ & Hid).
  split.
  - exact (Hsame (CallLink sampleJoinBuilder (On [str "a"; str "="; str "b"]))
             sampleState eq_refl).
  - exact (Hid sampleSubQueryBuilder (str "person") sampleState
             {| queryId := 0; qb_executor := 1; qb_adapter := 0;
                queryNode := {| from := [TableNode "person"] |} |}
             {| queryId := 1; qb_executor := 1; qb_adapter := 0;
                queryNode := {| from := [TableNode "person"] |} |}
             eq_refl eq_refl).
Defined.

(** ** Awaiting a builder *)

(** C9 as amended (await fails fast on join builders).  With the modules
    loaded, awaiting any [JoinBuilder] instance throws the diagnostic that
    [join-builder.ts] passes to [preventAwait], and leaves the store as it
    was. *)
Theorem await_join_builder_fails_fast (s : State) (b : loc)
    (p : JoinBuilderProps) :
  heap s !! b = Some (OJoinBuilder p) ->
  await loadedPrototypes b s
  = (Throw (MisuseError
      "don't await JoinBuilder instances. They are never executed directly and are always just a part of a query."),
     s).
Proof.
  intros Hb. unfold await. rewrite Hb. reflexivity.
Qed.

Lemma await_join_builder_fails_fast_witness :
  exists message,
    await loadedPrototypes sampleJoinBuilder sampleState
    = (Throw (MisuseError message), sampleState).
Proof.
  eexists.
  exact (await_join_builder_fails_fast sampleState sampleJoinBuilder _ eq_refl).
Defined.

(** C9 as stated fails for [SubQueryBuilder]: no guard is installed on that
    class, and awaiting the sample sub-query builder yields the builder, not
    an error. *)
Lemma await_sub_query_builder_resolves :
  await loadedPrototypes sampleSubQueryBuilder sampleState
  = (Ok sampleSubQueryBuilder, sampleState)
  /\ ~ (exists e,
          fst (await loadedPrototypes sampleSubQueryBuilder sampleState)
          = Throw e).
Proof.
  split; [reflexivity|]. intros [e He]. discriminate He.
Qed.


(** * Further properties of the builders *)

(** ** Chains as folds *)

Section Chains.
Context `{C : Collaborators}.

Lemma observe_join_builder (s : State) (b : loc) (n : JoinNode) :
  nodeOf s b = Some n -> observe s b = Some (ObsJoinBuilder n).
Proof.
  intros Hn. unfold observe. pose proof Hn as Hn'. unfold nodeOf in Hn'.
  destruct (heap s !! b) as [[]|]; try discriminate.
  rewrite Hn. reflexivity.
Qed.

Lemma chain_outcome_fold (ls : list Link) :
  forall (b : loc) (s : State) (n : JoinNode),
    nodeOf s b = Some n ->
    outcome (fst (chain ls b s)) (snd (chain ls b s))
    = joinOutcome (chainNode ls n).
Proof.
  induction ls as [|l ls IH]; intros b s n Hn.
  - cbn. rewrite (observe_join_builder _ _ _ Hn). reflexivity.
  - cbn [chain chainNode]. unfold bind.
    destruct (fragmentOf l) as [f|e] eqn:Hf.
    + destruct (applyLink_ok l b s n f Hn Hf) as (b1 & s1 & Hrun & Hn1 & _).
      rewrite Hrun. apply IH, Hn1.
    + rewrite (applyLink_throw l b s n e Hn Hf). reflexivity.
Qed.

Lemma chain_app (ls1 ls2 : list Link) (b : loc) (s : State) :
  chain (ls1 ++ ls2) b s = (let! b1 := chain ls1 b in chain ls2 b1) s.
Proof.
  revert b s. induction ls1 as [|l ls1 IH]; intros b s.
  - reflexivity.
  - cbn [chain app]. unfold bind.
    destruct (applyLink l b s) as [[b1|e] s1]; [|reflexivity].
    rewrite IH. reflexivity.
Qed.

Lemma chain_heap_prefix (ls : list Link) (b : loc) (s : State) :
  heap s `prefix_of` heap (snd (chain ls b s)).
Proof.
  revert b s. induction ls as [|l ls IH]; intros b s.
  - reflexivity.
  - cbn [chain]. unfold bind.
    pose proof (run_heap_prefix (CallLink b l) s) as Hpre. cbn [run] in Hpre.
    destruct (applyLink l b s) as [[b1|e] s1]; cbn [snd] in Hpre |- *.
    + etransitivity; [exact Hpre | apply IH].
    + exact Hpre.
Qed.

Lemma runAll_nodeOf (cs : list Call) (s : State) (b : loc) (n : JoinNode) :
  nodeOf s b = Some n -> nodeOf (runAll cs s) b = Some n.
Proof. apply nodeOf_stable, runAll_heap_prefix. Qed.


(** X2.  A chain stops at the first failing call: when the calls [ls1]
    all parse and the next call's parser fails with [e], the chain throws
    [e], the store is the store the calls [ls1] left, and the calls after
    the failing one are never run, whatever they are. *)
Theorem chain_stops_at_first_failure (ls1 ls2 : list Link)
    (fs : list OperationNode) (l : Link) (e : Error) (b : loc) (s : State)
    (n : JoinNode) :
  nodeOf s b = Some n ->
  Forall2 (fun l f => fragmentOf l = Ok f) ls1 fs ->
  fragmentOf l = Throw e ->
  chain (ls1 ++ l :: ls2) b s = (Throw e, snd (chain ls1 b s))
  /\ nodeOf (snd (chain ls1 b s)) b = Some n.
Proof.
  intros Hn Hfs Hl.
  destruct (chain_ok ls1 fs Hfs b s n Hn) as (b1 & s1 & Hrun & Hn1).
  rewrite chain_app. unfold bind at 1. rewrite Hrun. cbn [snd chain].
  unfold bind. rewrite (applyLink_throw l b1 s1 _ e Hn1 Hl).
  split; [reflexivity|].
  assert (Hpre : heap s `prefix_of` heap s1).
  { change s1 with (snd (Ok b1, s1)). rewrite <- Hrun.
    apply chain_heap_prefix. }
  exact (nodeOf_stable _ _ _ _ Hpre Hn).
Qed.

(** X3.  A join builder can be reused as a base at any time: after any
    sequence of calls on any receivers, successful or not, a chain started
    from a builder that existed before them has the outcome it would have
    had before them. *)
Theorem join_builder_is_reusable (cs : list Call) (ls : list Link)
    (b : loc) (s : State) (n : JoinNode) :
  nodeOf s b = Some n ->
  outcome (fst (chain ls b (runAll cs s))) (snd (chain ls b (runAll cs s)))
  = outcome (fst (chain ls b s)) (snd (chain ls b s)).
Proof.
  intros Hn.
  rewrite (chain_outcome_fold ls b (runAll cs s) n (runAll_nodeOf cs s b n Hn)).
  rewrite (chain_outcome_fold ls b s n Hn). reflexivity.
Qed.

End Chains.


(** X2 at the sample join builder: [on(a,'=',b)] succeeds, the next [on]
    has an unsupported operator, [onTrue] is never run. *)
Lemma chain_stops_at_first_failure_witness :
  chain (H := specCollaborators)
    ([On [str "a"; str "="; str "b"]]
       ++ On [str "col"; str "not_an_operator"; str "x"] :: [OnTrue])
    sampleJoinBuilder sampleState
  = (Throw (InvalidOperator "not_an_operator"),
     snd (chain (H := specCollaborators) [On [str "a"; str "="; str "b"]]
            sampleJoinBuilder sampleState)).
Proof.
  refine (proj1 (chain_stops_at_first_failure (C := specCollaborators)
                   [On [str "a"; str "="; str "b"]] [OnTrue]
                   [cmp "a" "=" "b"]
                   (On [str "col"; str "not_an_operator"; str "x"])
                   (InvalidOperator "not_an_operator")
                   sampleJoinBuilder sampleState _ eq_refl _ eq_refl)).
  repeat constructor.
Defined.

(** X3 at the sample store: [onTrue] on the sample join builder after a
    [subQuery], an [orOn] and a [withSchema] call. *)
Lemma join_builder_is_reusable_witness :
  outcome
    (fst (chain (H := specCollaborators) [OnTrue] sampleJoinBuilder
            (runAll (H := specCollaborators)
               [CallSubQuery sampleSubQueryBuilder (str "person");
                CallLink sampleJoinBuilder (OrOn [str "a"; str "="; str "b"]);
                CallWithSchema sampleSubQueryBuilder "s"] sampleState)))
    (snd (chain (H := specCollaborators) [OnTrue] sampleJoinBuilder
            (runAll (H := specCollaborators)
               [CallSubQuery sampleSubQueryBuilder (str "person");
                CallLink sampleJoinBuilder (OrOn [str "a"; str "="; str "b"]);
                CallWithSchema sampleSubQueryBuilder "s"] sampleState)))
  = outcome
      (fst (chain (H := specCollaborators) [OnTrue] sampleJoinBuilder
              sampleState))
      (snd (chain (H := specCollaborators) [OnTrue] sampleJoinBuilder
              sampleState)).
Proof.
  exact (join_builder_is_reusable (C := specCollaborators)
           [CallSubQuery sampleSubQueryBuilder (str "person");
            CallLink sampleJoinBuilder (OrOn [str "a"; str "="; str "b"]);
            CallWithSchema sampleSubQueryBuilder "s"]
           [OnTrue] sampleJoinBuilder sampleState _ eq_refl).
Defined.


(** ** Store invariants *)

Section Invariants.
Context `{C : Collaborators}.

Lemma objectOk_stable (s s' : State) (o : Obj) :
  heap s `prefix_of` heap s' ->
  nextQueryId s <= nextQueryId s' ->
  objectOk s o = true -> objectOk s' o = true.
Proof.
  intros Hpre Hle.
  assert (Hj : forall l, holdsJoinNode s l = true -> holdsJoinNode s' l = true).
  { intros l. unfold holdsJoinNode.
    destruct (heap s !! l) as [x|] eqn:Hl; [|discriminate].
    rewrite (prefix_lookup_Some _ _ _ _ Hl Hpre). tauto. }
  assert (He : forall l, holdsExecutor s l = true -> holdsExecutor s' l = true).
  { intros l. unfold holdsExecutor.
    destruct (heap s !! l) as [x|] eqn:Hl; [|discriminate].
    rewrite (prefix_lookup_Some _ _ _ _ Hl Hpre). tauto. }
  assert (Ha : forall l, holdsAdapter s l = true -> holdsAdapter s' l = true).
  { intros l. unfold holdsAdapter.
    destruct (heap s !! l) as [x|] eqn:Hl; [|discriminate].
    rewrite (prefix_lookup_Some _ _ _ _ Hl Hpre). tauto. }
  destruct o as [| p | p | p | |]; cbn; try tauto.
  - apply Hj.
  - intros H. apply andb_prop in H as [H1 H2].
    rewrite (He _ H1), (Ha _ H2). reflexivity.
  - intros H. apply andb_prop in H as [H12 H3].
    apply andb_prop in H12 as [H1 H2].
    rewrite (He _ H1), (Ha _ H2). cbn.
    apply Nat.ltb_lt in H3. apply Nat.ltb_lt. lia.
Qed.

Lemma wellFormed_lookup (s : State) (l : loc) (o : Obj) :
  wellFormed s = true -> heap s !! l = Some o -> objectOk s o = true.
Proof.
  unfold wellFormed. intros Hwf Hl.
  rewrite forallb_forall in Hwf. apply Hwf.
  apply list_elem_of_In. exact (list_elem_of_lookup_2 _ _ _ Hl).
Qed.

(** A store that grew, possibly drawing identifiers, is well formed when
    the old store was and the new objects are well typed in it. *)
Lemma wellFormed_grown (s s' : State) (objs : list Obj) :
  wellFormed s = true ->
  heap s' = heap s ++ objs ->
  nextQueryId s <= nextQueryId s' ->
  forallb (objectOk s') objs = true ->
  wellFormed s' = true.
Proof.
  unfold wellFormed. intros Hwf Hheap Hle Hnew.
  rewrite Hheap, forallb_app, Hnew, andb_true_r.
  rewrite forallb_forall in Hwf |- *. intros o Ho.
  apply (objectOk_stable s s'); [rewrite Hheap; apply prefix_app_r; reflexivity
                                | exact Hle | apply Hwf, Ho].
Qed.

Lemma run_wellFormed (c : Call) (s : State) :
  wellFormed s = true -> wellFormed (snd (run c s)) = true.
Proof.
  intros Hwf.
  destruct c as [b l|b|b table|b schema]; unfold run.
  - rewrite applyLink_run.
    destruct (heap s !! b) as [[| p | | | |]|] eqn:Hb; try exact Hwf.
    destruct (fragmentOf l); try exact Hwf.
    destruct (heap s !! joinNode p) as [[]|]; try exact Hwf.
    cbn [snd].
    eapply (wellFormed_grown s); [exact Hwf | reflexivity | reflexivity |].
    cbn -[lookup]. unfold holdsJoinNode, grown. cbn -[lookup].
    rewrite lookup_fresh. reflexivity.
  - rewrite toOperationNode_run.
    destruct (heap s !! b) as [[]|]; exact Hwf.
  - rewrite subQuery_run.
    assert (Hdrawn : wellFormed (idDrawn s) = true).
    { eapply (wellFormed_grown s _ []); [exact Hwf | | |].
      - cbn. rewrite app_nil_r. reflexivity.
      - cbn. lia.
      - reflexivity. }
    destruct (heap s !! b) as [[| | p | | |]|] eqn:Hb; try exact Hdrawn.
    destruct (parseTableExpressionOrList _ _); try exact Hdrawn.
    cbn [snd].
    pose proof (wellFormed_lookup s b _ Hwf Hb) as Hp. cbn in Hp.
    apply andb_prop in Hp as [He Ha].
    eapply (wellFormed_grown s); [exact Hwf | reflexivity | cbn; lia |].
    cbn -[lookup holdsExecutor holdsAdapter].
    assert (Hpre : heap s `prefix_of` heap (grown (idDrawn s)
              [OQueryBuilder
                 {| queryId := nextQueryId s; qb_executor := executor p;
                    qb_adapter := adapter p;
                    queryNode := SelectQueryNode_create a |}]))
      by (cbn; apply prefix_app_r; reflexivity).
    pose proof (objectOk_stable s _ (OSubQueryBuilder p) Hpre
                  (Nat.le_succ_diag_r _)) as Hstable.
    cbn -[holdsExecutor holdsAdapter] in Hstable.
    rewrite He, Ha in Hstable. specialize (Hstable eq_refl).
    rewrite Hstable. cbn. rewrite Nat.leb_refl. reflexivity.
  - rewrite withSchema_run.
    destruct (heap s !! b) as [[| | p | | |]|] eqn:Hb; try exact Hwf.
    destruct (heap s !! executor p) as [[]|]; try exact Hwf.
    cbn [snd].
    pose proof (wellFormed_lookup s b _ Hwf Hb) as Hp. cbn in Hp.
    apply andb_prop in Hp as [_ Ha].
    eapply (wellFormed_grown s); [exact Hwf | reflexivity | reflexivity |].
    cbn -[lookup holdsAdapter]. unfold holdsExecutor, grown. cbn -[lookup holdsAdapter].
    rewrite lookup_fresh. cbn -[lookup holdsAdapter].
    rewrite andb_true_r.
    unfold holdsAdapter in Ha |- *. cbn -[lookup].
    destruct (heap s !! adapter p) as [x|] eqn:Hx; [|discriminate].
    rewrite (lookup_app_l_Some _ _ _ _ Hx). exact Ha.
Qed.

End Invariants.

Section InvariantTheorems.
Context `{C : Collaborators}.

(** X5.  The store stays well typed: when every reference of every
    builder points to an object of its declared class (a join builder's
    [joinNode] to a join node, a sub-query builder's and a query builder's
    [executor] and [adapter] to an executor and an adapter) and every query
    identifier in use has been drawn, the same holds after any sequence of
    calls, whether they return or throw. *)
Theorem calls_keep_the_store_well_formed (cs : list Call) (s : State) :
  wellFormed s = true -> wellFormed (runAll cs s) = true.
Proof.
  revert s. induction cs as [|c cs IH]; intros s Hwf; cbn.
  - exact Hwf.
  - apply IH, run_wellFormed, Hwf.
Qed.

(** X6.  The builders raise no error of their own.  In a well-formed
    store, an [on]-family call on a join builder returns exactly when its
    parser returns and throws the parser's error otherwise (so [onTrue]
    always returns), [toOperationNode] and [withSchema] always return, and
    [subQuery] throws only the error of the table-expression parser. *)
Theorem builders_throw_only_parser_errors (s : State) :
  wellFormed s = true ->
  (forall b p l,
      heap s !! b = Some (OJoinBuilder p) ->
      match fragmentOf l with
      | Ok _ => exists b', fst (applyLink l b s) = Ok b'
      | Throw e => fst (applyLink l b s) = Throw e
      end)
  /\ (forall b p,
        heap s !! b = Some (OJoinBuilder p) ->
        exists b', fst (JoinBuilder.onTrue b s) = Ok b')
  /\ (forall b p,
        heap s !! b = Some (OJoinBuilder p) ->
        JoinBuilder.toOperationNode b s = (Ok (joinNode p), s)
        /\ holdsJoinNode s (joinNode p) = true)
  /\ (forall b p schema,
        heap s !! b = Some (OSubQueryBuilder p) ->
        exists b', fst (SubQueryBuilder.withSchema b schema s) = Ok b')
  /\ (forall b p table,
        heap s !! b = Some (OSubQueryBuilder p) ->
        match parseTableExpressionOrList
                (createParseContext (adapter p)) table with
        | Ok _ => exists q, fst (SubQueryBuilder.subQuery b table s) = Ok q
        | Throw e => fst (SubQueryBuilder.subQuery b table s) = Throw e
        end).
Proof.
  intros Hwf.
  assert (Hlink : forall b p l,
      heap s !! b = Some (OJoinBuilder p) ->
      match fragmentOf l with
      | Ok _ => exists b', fst (applyLink l b s) = Ok b'
      | Throw e => fst (applyLink l b s) = Throw e
      end).
  { intros b p l Hb. rewrite applyLink_run, Hb.
    pose proof (wellFormed_lookup s b _ Hwf Hb) as Hp.
    cbn in Hp. unfold holdsJoinNode in Hp.
    destruct (fragmentOf l); [|reflexivity].
    destruct (heap s !! joinNode p) as [[]|]; try discriminate.
    eexists. reflexivity. }
  split; [exact Hlink|]. split; [|split; [|split]].
  - intros b p Hb. exact (Hlink b p OnTrue Hb).
  - intros b p Hb. rewrite toOperationNode_run, Hb.
    split; [reflexivity|].
    exact (wellFormed_lookup s b _ Hwf Hb).
  - intros b p schema Hb. rewrite withSchema_run, Hb.
    pose proof (wellFormed_lookup s b _ Hwf Hb) as Hp.
    cbn in Hp. apply andb_prop in Hp as [He _]. unfold holdsExecutor in He.
    destruct (heap s !! executor p) as [[]|]; try discriminate.
    eexists. reflexivity.
  - intros b p table Hb. rewrite subQuery_run, Hb.
    destruct (parseTableExpressionOrList _ _); [|reflexivity].
    eexists. reflexivity.
Qed.

Lemma queryIds_drawn (s : State) (i : nat) :
  wellFormed s = true -> In i (queryIds s) -> i < nextQueryId s.
Proof.
  unfold wellFormed, queryIds. intros Hwf Hi.
  rewrite forallb_forall in Hwf.
  apply in_flat_map in Hi as (o & Ho & Hio).
  specialize (Hwf o Ho).
  destruct o as [| | | p | |]; cbn in Hio; try contradiction.
  destruct Hio as [<-|[]]. cbn in Hwf.
  apply andb_prop in Hwf as [_ Hlt]. apply Nat.ltb_lt, Hlt.
Qed.

Lemma run_queryIds (c : Call) (s : State) :
  queryIds (snd (run c s)) = queryIds s
  \/ (queryIds (snd (run c s)) = queryIds s ++ [nextQueryId s]).
Proof.
  unfold queryIds.
  destruct c as [b l|b|b table|b schema]; unfold run.
  - left. rewrite applyLink_run.
    destruct (heap s !! b) as [[| p | | | |]|]; try reflexivity.
    destruct (fragmentOf l); try reflexivity.
    destruct (heap s !! joinNode p) as [[]|]; try reflexivity.
    cbn. rewrite flat_map_app. cbn. apply app_nil_r.
  - left. rewrite toOperationNode_run.
    destruct (heap s !! b) as [[]|]; reflexivity.
  - rewrite subQuery_run.
    destruct (heap s !! b) as [[| | p | | |]|]; try (left; reflexivity).
    destruct (parseTableExpressionOrList _ _); [|left; reflexivity].
    right. cbn. rewrite flat_map_app. reflexivity.
  - left. rewrite withSchema_run.
    destruct (heap s !! b) as [[| | p | | |]|]; try reflexivity.
    destruct (heap s !! executor p) as [[]|]; try reflexivity.
    cbn. rewrite flat_map_app. cbn. apply app_nil_r.
Qed.

(** X7.  Query identifiers are never shared: in a well-formed store whose
    query builders carry pairwise different identifiers, the query builders
    of the store after any sequence of calls, old and new, still carry
    pairwise different identifiers. *)
Theorem query_ids_stay_distinct (cs : list Call) (s : State) :
  wellFormed s = true -> NoDup (queryIds s) -> NoDup (queryIds (runAll cs s)).
Proof.
  revert s. induction cs as [|c cs IH]; intros s Hwf Hnd; cbn.
  - exact Hnd.
  - apply IH; [apply run_wellFormed, Hwf|].
    destruct (run_queryIds c s) as [-> | ->]; [exact Hnd|].
    apply NoDup_app. split; [exact Hnd|]. split.
    + intros i Hin Hi. apply list_elem_of_In in Hin.
      apply (queryIds_drawn s _ Hwf) in Hin.
      apply list_elem_of_In in Hi. destruct Hi as [Hi|[]]. lia.
    + apply NoDup_cons. split; [|apply NoDup_nil_2].
      intros Hi. apply list_elem_of_In in Hi. exact Hi.
Qed.

Lemma run_counter (c : Call) (s : State) :
  nextQueryId (snd (run c s))
  = nextQueryId s + (if isSubQuery c then 1 else 0).
Proof.
  destruct c as [b l|b|b table|b schema]; unfold run; cbn [isSubQuery].
  - rewrite applyLink_run.
    destruct (heap s !! b) as [[| p | | | |]|]; cbn; try lia.
    destruct (fragmentOf l); cbn; try lia.
    destruct (heap s !! joinNode p) as [[]|]; cbn; lia.
  - rewrite toOperationNode_run.
    destruct (heap s !! b) as [[]|]; cbn; lia.
  - rewrite subQuery_run.
    destruct (heap s !! b) as [[| | p | | |]|]; cbn; try lia.
    destruct (parseTableExpressionOrList _ _); cbn; lia.
  - rewrite withSchema_run.
    destruct (heap s !! b) as [[| | p | | |]|]; cbn; try lia.
    destruct (heap s !! executor p) as [[]|]; cbn; lia.
Qed.

(** X8.  [createQueryId()] is called once by every [subQuery] call, before
    the table expression is parsed, and by no other method: after a
    sequence of calls the identifier counter has advanced by the number of
    [subQuery] calls in it, those that threw included. *)
Theorem only_subQuery_draws_identifiers (cs : list Call) (s : State) :
  nextQueryId (runAll cs s) = nextQueryId s + countSubQueries cs.
Proof.
  revert s. induction cs as [|c cs IH]; intros s.
  - cbn. lia.
  - cbn [runAll fold_left]. fold (runAll cs (snd (run c s))).
    rewrite IH, run_counter. unfold countSubQueries. cbn [List.filter].
    destruct (isSubQuery c); cbn [length]; lia.
Qed.
End InvariantTheorems.

(** X5 at the sample store, after a mix of returning and throwing calls. *)
Lemma calls_keep_the_store_well_formed_witness :
  wellFormed
    (runAll (H := specCollaborators)
       [CallLink sampleJoinBuilder (On [str "a"; str "="; str "b"]);
        CallSubQuery sampleSubQueryBuilder (JsLit LNull);
        CallWithSchema sampleSubQueryBuilder "s";
        CallSubQuery 6 (str "person");
        CallLink sampleSubQueryBuilder OnTrue] sampleState)
  = true.
Proof.
  exact (calls_keep_the_store_well_formed (C := specCollaborators)
           [CallLink sampleJoinBuilder (On [str "a"; str "="; str "b"]);
            CallSubQuery sampleSubQueryBuilder (JsLit LNull);
            CallWithSchema sampleSubQueryBuilder "s";
            CallSubQuery 6 (str "person");
            CallLink sampleSubQueryBuilder OnTrue] sampleState eq_refl).
Defined.

(** X6 at the sample store: [onTrue] and [withSchema] return. *)
Lemma builders_throw_only_parser_errors_witness :
  (exists b', fst (JoinBuilder.onTrue (H := specCollaborators)
                     sampleJoinBuilder sampleState) = Ok b')
  /\ (exists b', fst (SubQueryBuilder.withSchema sampleSubQueryBuilder "s"
                        sampleState) = Ok b').
Proof.
  destruct (builders_throw_only_parser_errors (C := specCollaborators)
              sampleState eq_refl) as (_ & Htrue & _ & Hschema & _).
  split.
  - exact (Htrue sampleJoinBuilder _ eq_refl).
  - exact (Hschema sampleSubQueryBuilder _ "s" eq_refl).
Defined.

(** X7 at the sample store, which holds no query builder: after two
    [subQuery] calls with a failing one in between. *)
Lemma query_ids_stay_distinct_witness :
  NoDup (queryIds
           (runAll (H := specCollaborators)
              [CallSubQuery sampleSubQueryBuilder (str "person");
               CallSubQuery sampleSubQueryBuilder (JsLit LNull);
               CallSubQuery sampleSubQueryBuilder (str "pet")] sampleState)).
Proof.
  exact (query_ids_stay_distinct (C := specCollaborators)
           [CallSubQuery sampleSubQueryBuilder (str "person");
            CallSubQuery sampleSubQueryBuilder (JsLit LNull);
            CallSubQuery sampleSubQueryBuilder (str "pet")] sampleState
           eq_refl (NoDup_nil_2 (A := nat))).
Defined.

(** ** Sub-query builders *)

Section SubQueryBuilders.
Context `{C : Collaborators}.

Lemma withSchemas_chain (schemas : list string) :
  forall (b : loc) (p : SubQueryBuilderProps) (ps : list Plugin) (s : State),
    subQueryBuilderAt s b = Some p ->
    pluginsAt s (executor p) = Some ps ->
    exists b' s' p',
      withSchemas schemas b s = (Ok b', s')
      /\ heap s `prefix_of` heap s'
      /\ subQueryBuilderAt s' b' = Some p'
      /\ adapter p' = adapter p
      /\ pluginsAt s' (executor p')
         = Some (map WithSchemaPlugin (rev schemas) ++ ps).
Proof.
  induction schemas as [|schema rest IH]; intros b p ps s Hb Hps.
  - exists b, s, p. repeat split; try assumption; reflexivity.
  - pose proof (withSchema_ok b schema s p ps Hb Hps) as Hrun.
    set (s1 := grown s _) in Hrun.
    assert (Hb1 : subQueryBuilderAt s1 (S (length (heap s)))
                  = Some {| executor := length (heap s);
                            adapter := adapter p |})
      by apply derived_builder_at.
    assert (Hps1 : pluginsAt s1 (length (heap s))
                   = Some (WithSchemaPlugin schema :: ps)).
    { unfold pluginsAt, s1, grown. cbn -[lookup].
      rewrite lookup_fresh. reflexivity. }
    destruct (IH _ _ _ _ Hb1 Hps1)
      as (b' & s' & p' & Hrest & Hpre & Hb' & Had & Hps').
    exists b', s', p'. split; [|split; [|split; [|split]]].
    + cbn [withSchemas]. unfold bind. rewrite Hrun. exact Hrest.
    + etransitivity; [|exact Hpre].
      unfold s1, grown. cbn. apply prefix_app_r. reflexivity.
    + exact Hb'.
    + rewrite Had. reflexivity.
    + rewrite Hps'. cbn [rev]. rewrite map_app, <- app_assoc. reflexivity.
Qed.

(** X9.  Schemas stack in front: [b.withSchema(s1)...withSchema(sk)]
    returns a builder with the adapter of [b] whose executor carries the
    plugins [WithSchemaPlugin(sk), ..., WithSchemaPlugin(s1)] in front of
    the plugin chain of [b]'s executor; none is dropped or merged, and [b]
    with its executor is as before. *)
Theorem withSchema_stacks_in_front (schemas : list string) (b : loc)
    (p : SubQueryBuilderProps) (ps : list Plugin) (s : State) :
  subQueryBuilderAt s b = Some p ->
  pluginsAt s (executor p) = Some ps ->
  exists b' s' p',
    withSchemas schemas b s = (Ok b', s')
    /\ subQueryBuilderAt s' b' = Some p'
    /\ adapter p' = adapter p
    /\ pluginsAt s' (executor p')
       = Some (map WithSchemaPlugin (rev schemas) ++ ps)
    /\ subQueryBuilderAt s' b = Some p
    /\ pluginsAt s' (executor p) = Some ps.
Proof.
  intros Hb Hps.
  destruct (withSchemas_chain schemas b p ps s Hb Hps)
    as (b' & s' & p' & Hrun & Hpre & Hb' & Had & Hps').
  exists b', s', p'. repeat split; try assumption.
  - exact (subQueryBuilderAt_stable _ _ _ _ Hpre Hb).
  - exact (pluginsAt_stable _ _ _ _ Hpre Hps).
Qed.

(** X10.  Schema propagation: [b.withSchema(schema).subQuery(table)]
    returns, when the table expression parses, a query builder over a new
    executor whose chain is [WithSchemaPlugin(schema)] in front of the chain
    of [b]'s executor, with the adapter of [b], the select node of the
    parsed items and the identifier that was next before the two calls
    ([withSchema] draws none). *)
Theorem withSchema_then_subQuery (b : loc) (p : SubQueryBuilderProps)
    (ps : list Plugin) (schema : string) (table : JsValue)
    (items : list TableExpressionNode) (s : State) :
  subQueryBuilderAt s b = Some p ->
  pluginsAt s (executor p) = Some ps ->
  parseTableExpressionOrList (createParseContext (adapter p)) table
  = Ok items ->
  yields (let! b1 := SubQueryBuilder.withSchema b schema in
          SubQueryBuilder.subQuery b1 table) s
    (fun s' q =>
       exists e',
         queryBuilderAt s' q
         = Some {| queryId := nextQueryId s;
                   qb_executor := e';
                   qb_adapter := adapter p;
                   queryNode := SelectQueryNode_create items |}
         /\ e' <> executor p
         /\ pluginsAt s' e' = Some (WithSchemaPlugin schema :: ps)).
Proof.
  intros Hb Hps Hitems. unfold yields, bind.
  rewrite (withSchema_ok b schema s p ps Hb Hps).
  set (s1 := grown s _).
  rewrite subQuery_run.
  assert (Hb1 : subQueryBuilderAt s1 (S (length (heap s)))
                = Some {| executor := length (heap s);
                          adapter := adapter p |})
    by apply derived_builder_at.
  unfold subQueryBuilderAt in Hb1.
  destruct (heap s1 !! S (length (heap s))) as [[| | p1 | | |]|];
    try discriminate.
  injection Hb1 as ->. cbn [adapter executor]. rewrite Hitems.
  eexists _, _. split; [reflexivity|].
  exists (length (heap s)). split; [|split].
  - unfold queryBuilderAt, grown, idDrawn. cbn -[lookup].
    rewrite lookup_fresh. reflexivity.
  - unfold pluginsAt in Hps.
    destruct (heap s !! executor p) as [x|] eqn:Hx; [|discriminate].
    apply lookup_lt_Some in Hx. lia.
  - unfold pluginsAt, grown, idDrawn, s1, grown. cbn -[lookup].
    rewrite <- app_assoc. cbn [app]. rewrite lookup_fresh. reflexivity.
Qed.

(** X11.  A sub-query builder can be reused as a base at any time: after
    any sequence of calls, [withSchema] on a builder that existed before
    them has the outcome it would have had before them, and so has
    [subQuery] up to the query identifier. *)
Theorem sub_query_builder_is_reusable (cs : list Call) (b : loc)
    (p : SubQueryBuilderProps) (ps : list Plugin) (s : State) :
  subQueryBuilderAt s b = Some p ->
  pluginsAt s (executor p) = Some ps ->
  (forall schema,
      firstRun (CallWithSchema b schema) (runAll cs s)
      = firstRun (CallWithSchema b schema) s)
  /\ (forall table,
        eraseOutcome (firstRun (CallSubQuery b table) (runAll cs s))
        = eraseOutcome (firstRun (CallSubQuery b table) s)).
Proof.
  unfold subQueryBuilderAt, pluginsAt. intros Hb Hps.
  pose proof (runAll_heap_prefix cs s) as Hpre.
  destruct (heap s !! b) as [[| | p0 | | |]|] eqn:Hb0; try discriminate.
  injection Hb as ->.
  destruct (heap s !! executor p) as [[| | | | ps0 |]|] eqn:He;
    try discriminate.
  split.
  - intros schema. rewrite !withSchema_outcome.
    rewrite (prefix_lookup_Some _ _ _ _ Hb0 Hpre), Hb0.
    rewrite (prefix_lookup_Some _ _ _ _ He Hpre), He. reflexivity.
  - intros table. rewrite !subQuery_first_outcome.
    rewrite (prefix_lookup_Some _ _ _ _ Hb0 Hpre), Hb0.
    destruct (parseTableExpressionOrList _ _); reflexivity.
Qed.

Lemma nodeOf_join_builder (s : State) (b : loc) (n : JoinNode) :
  nodeOf s b = Some n -> exists p, heap s !! b = Some (OJoinBuilder p).
Proof.
  unfold nodeOf. destruct (heap s !! b) as [[| p | | | |]|]; try discriminate.
  exists p. reflexivity.
Qed.

(** X12.  The await guard covers every builder a chain returns: it is
    installed on the class, so the builder returned by any chain of
    [on]-family calls whose parsers succeed throws the [JoinBuilder]
    diagnostic when awaited, as the builder the chain started from does. *)
Theorem chained_builders_are_await_guarded (ls : list Link)
    (fs : list OperationNode) (b : loc) (s : State) (n : JoinNode) :
  nodeOf s b = Some n ->
  Forall2 (fun l f => fragmentOf l = Ok f) ls fs ->
  yields (chain ls b) s
    (fun s' b' =>
       await loadedPrototypes b' s'
       = (Throw (MisuseError
           "don't await JoinBuilder instances. They are never executed directly and are always just a part of a query."),
          s')).
Proof.
  intros Hn Hfs.
  destruct (chain_ok ls fs Hfs b s n Hn) as (b' & s' & Hrun & Hn').
  exists b', s'. split; [exact Hrun|].
  destruct (nodeOf_join_builder _ _ _ Hn') as [p Hb'].
  unfold await. rewrite Hb'. reflexivity.
Qed.
End SubQueryBuilders.

(** X9 at the sample sub-query builder: [withSchema("a").withSchema("b")]
    puts the plugin for ["b"] in front of the plugin for ["a"]. *)
Lemma withSchema_stacks_in_front_witness :
  exists b' s' p',
    withSchemas ["a"; "b"] sampleSubQueryBuilder sampleState = (Ok b', s')
    /\ subQueryBuilderAt s' b' = Some p'
    /\ adapter p' = 0
    /\ pluginsAt s' (executor p')
       = Some [WithSchemaPlugin "b"; WithSchemaPlugin "a"].
Proof.
  destruct (withSchema_stacks_in_front ["a"; "b"] sampleSubQueryBuilder
              _ [] sampleState eq_refl eq_refl)
    as (b' & s' & p' & Hrun & Hb' & Had & Hps & _).
  exists b', s', p'. repeat split; assumption.
Defined.

(** X10 at the sample sub-query builder, with the reference collaborators:
    [withSchema("s").subQuery("person")]. *)
Lemma withSchema_then_subQuery_witness :
  yields (let! b1 := SubQueryBuilder.withSchema sampleSubQueryBuilder "s" in
          SubQueryBuilder.subQuery (H := specCollaborators) b1 (str "person"))
    sampleState
    (fun s' q =>
       exists e',
         queryBuilderAt s' q
         = Some {| queryId := 0; qb_executor := e'; qb_adapter := 0;
                   queryNode := {| from := [TableNode "person"] |} |}
         /\ e' <> 1
         /\ pluginsAt s' e' = Some [WithSchemaPlugin "s"]).
Proof.
  exact (withSchema_then_subQuery (C := specCollaborators)
           sampleSubQueryBuilder _ [] "s" (str "person") _ sampleState
           eq_refl eq_refl eq_refl).
Defined.

(** X11 at the sample sub-query builder, after a [withSchema], a
    [subQuery] and an [onTrue] call. *)
Lemma sub_query_builder_is_reusable_witness :
  firstRun (H := specCollaborators)
    (CallWithSchema sampleSubQueryBuilder "t")
    (runAll (H := specCollaborators)
       [CallWithSchema sampleSubQueryBuilder "s";
        CallSubQuery sampleSubQueryBuilder (str "person");
        CallLink sampleJoinBuilder OnTrue] sampleState)
  = firstRun (H := specCollaborators)
      (CallWithSchema sampleSubQueryBuilder "t") sampleState.
Proof.
  exact (proj1 (sub_query_builder_is_reusable (C := specCollaborators)
                  [CallWithSchema sampleSubQueryBuilder "s";
                   CallSubQuery sampleSubQueryBuilder (str "person");
                   CallLink sampleJoinBuilder OnTrue]
                  sampleSubQueryBuilder _ [] sampleState eq_refl eq_refl)
           "t").
Defined.

(** X12 at the sample join builder, with the reference collaborators: the
    builder returned by [on(a,'=',b).onTrue()] is guarded. *)
Lemma chained_builders_are_await_guarded_witness :
  yields (chain (H := specCollaborators)
            [On [str "a"; str "="; str "b"]; OnTrue] sampleJoinBuilder)
    sampleState
    (fun s' b' =>
       exists message,
         fst (await loadedPrototypes b' s') = Throw (MisuseError message)).
Proof.
  destruct (chained_builders_are_await_guarded (C := specCollaborators)
              [On [str "a"; str "="; str "b"]; OnTrue]
              [cmp "a" "=" "b"; RawNode "true"]
              sampleJoinBuilder sampleState _ eq_refl)
    as (b' & s' & Hrun & Hawait).
  { repeat constructor. }
  exists b', s'. split; [exact Hrun|].
  eexists. rewrite Hawait. reflexivity.
Defined.
